(** * UHP agent: storage engine, permission system and storage routes

    A shallow embedding of [agent/storage.js], [agent/permissions.js],
    [agent/routes/permissions.js] and the storage router
    ([agent/routes/storage.js]), and of the crypto envelope that the
    protocol text describes for the sync layer, followed by their
    properties.

    Conventions of the embedding.
    - The SQLite tables [items] and [permissions] are finite maps
      keyed by their primary keys.
    - A [TEXT] column that holds [JSON.stringify v] is represented by
      the JSON value [v] it denotes.
    - [Date.now()] and [Math.random()] are explicit arguments.
    - JSON numbers are integers; strings are sequences of code units.
    - The body fields [namespace], [collection], [id] and [origin] are
      strings or absent; [data] and [capabilities] are any JSON value
      or absent.
    - Statements on the tables do not fail, so the [catch] branches of
      the routes (STORAGE_ERROR, PERMISSION_ERROR) are not reached. *)

From Stdlib Require Import ZArith NArith String Ascii List Bool Lia.
From stdpp Require Import base option gmap strings list pretty sorting.

Local Open Scope Z_scope.
Local Open Scope string_scope.

(** ** JSON values and the JavaScript operations the agent applies to them *)

Module JS.

#[local] Set Warnings "-register-all".

Inductive json : Type :=
| JNull
| JBool (b : bool)
| JNum (n : Z)
| JStr (s : string)
| JArr (xs : list json)
| JObj (props : list (string * json)).

(** [ToBoolean] on JSON values: what [!v] and [v || d] test. *)
Definition truthy (v : json) : bool :=
  match v with
  | JNull => false
  | JBool b => b
  | JNum n => negb (n =? 0)%Z
  | JStr s => negb (String.eqb s "")
  | JArr _ | JObj _ => true
  end.

(** A field of a parsed body, a header, an optional argument:
    [None] is [undefined]. *)
Definition truthy_str (o : option string) : bool :=
  match o with
  | Some s => negb (String.eqb s "")
  | None => false
  end.

(** [a || b] on optional strings. *)
Definition or_str (a : option string) (b : option string) : option string :=
  if truthy_str a then a else b.

(** [String.prototype.includes]. *)
Fixpoint includes (hay needle : string) : bool :=
  String.prefix needle hay ||
  match hay with
  | EmptyString => false
  | String _ hay' => includes hay' needle
  end.

(** What [includes] decides: [needle] occurs somewhere in [hay]. *)
Definition contains (hay needle : string) : Prop :=
  exists pre post, hay = pre ++ needle ++ post.

(** *** Property order of ordinary objects

    Own property keys are enumerated with array indices first, in
    ascending order, then the other string keys in insertion order. *)

Definition digit_of (c : ascii) : option N :=
  let n := N_of_ascii c in
  if ((48 <=? n) && (n <=? 57))%N then Some (n - 48)%N else None.

Fixpoint parse_digits (s : string) (acc : N) : option N :=
  match s with
  | EmptyString => Some acc
  | String c s' =>
      match digit_of c with
      | Some d => parse_digits s' (acc * 10 + d)%N
      | None => None
      end
  end.

(** A key is an array index when it is the canonical decimal form of
    an integer below [2^32 - 1]. *)
Definition array_index (k : string) : option N :=
  match k with
  | EmptyString => None
  | _ =>
      match parse_digits k 0%N with
      | Some n =>
          if (String.eqb (pretty n) k && (n <? 4294967295)%N)%bool
          then Some n else None
      | None => None
      end
  end.

(** Property lookup.  When a member list repeats a name the later
    member wins, as it does in [JSON.parse]. *)
Fixpoint get_prop (k : string) (props : list (string * json)) : option json :=
  match props with
  | [] => None
  | (k', v) :: rest =>
      match get_prop k rest with
      | Some w => Some w
      | None => if String.eqb k k' then Some v else None
      end
  end.

Definition has_prop (k : string) (props : list (string * json)) : bool :=
  existsb (fun p => String.eqb k (fst p)) props.

(** Overwrite the value of an existing property, keeping its place. *)
Fixpoint overwrite (k : string) (v : json) (props : list (string * json))
  : list (string * json) :=
  match props with
  | [] => []
  | (k', w) :: rest =>
      if String.eqb k k' then (k', v) :: overwrite k v rest
      else (k', w) :: overwrite k v rest
  end.

(** Place a new array-index key [n] before the first key that is not
    an index or is a larger index. *)
Fixpoint insert_index (n : N) (k : string) (v : json)
    (props : list (string * json)) : list (string * json) :=
  match props with
  | [] => [(k, v)]
  | (k', w) :: rest =>
      match array_index k' with
      | Some m =>
          if (n <? m)%N then (k, v) :: (k', w) :: rest
          else (k', w) :: insert_index n k v rest
      | None => (k, v) :: (k', w) :: rest
      end
  end.

(** [CreateDataProperty] on an ordinary object. *)
Definition define_prop (props : list (string * json)) (kv : string * json)
  : list (string * json) :=
  let '(k, v) := kv in
  if has_prop k props then overwrite k v props
  else match array_index k with
       | Some n => insert_index n k v props
       | None => props ++ [(k, v)]
       end.

(** Own enumerable string-keyed properties of a value, as
    [CopyDataProperties] sees them: the members of an object, the
    elements of an array under their indices, the code units of a
    string under theirs; nothing for the other primitives. *)
Fixpoint index_from {A : Type} (i : N) (xs : list A) : list (string * A) :=
  match xs with
  | [] => []
  | x :: rest => (pretty i, x) :: index_from (N.succ i) rest
  end.

Fixpoint code_units (s : string) : list json :=
  match s with
  | EmptyString => []
  | String c s' => JStr (String c EmptyString) :: code_units s'
  end.

Definition own_props (v : json) : list (string * json) :=
  match v with
  | JObj props => props
  | JArr xs => index_from 0%N xs
  | JStr s => index_from 0%N (code_units s)
  | JNull | JBool _ | JNum _ => []
  end.

(** One spread element [...v] inside an object literal. *)
Definition spread (target : list (string * json)) (v : json)
  : list (string * json) :=
  fold_left define_prop (own_props v) target.

(** The object literal [{ ...a, ...b }]. *)
Definition spread2 (a b : json) : list (string * json) :=
  spread (spread [] a) b.

End JS.

Import JS.

(** ** The SQLite database shared by the storage engine and the
    permission system *)

Module Db.

(** A row of [items]; the primary key [(namespace, collection, id)]
    is the key of the table. *)
Record item_row : Type := {
  data : json;
  created_at : Z;
  updated_at : Z;
}.

(** A row of [permissions]; the primary key is [(origin, namespace)]. *)
Record permission_row : Type := {
  capabilities : json;
  granted_at : Z;
}.

Record database : Type := {
  items : gmap (string * string * string) item_row;
  permissions : gmap (string * string) permission_row;
}.

Definition empty : database := {| items := ∅; permissions := ∅ |}.

Definition with_items (db : database)
    (tbl : gmap (string * string * string) item_row) : database :=
  {| items := tbl; permissions := permissions db |}.

Definition with_permissions (db : database)
    (tbl : gmap (string * string) permission_row) : database :=
  {| items := items db; permissions := tbl |}.

End Db.

Import Db.

(** ** agent/storage.js *)

Module Storage.

Record write_result : Type := {
  wr_id : string;
  wr_created_at : Z;
}.

Record update_result : Type := {
  ur_id : string;
  ur_updated_at : Z;
  ur_data : list (string * json);
}.

(** [INSERT ... ON CONFLICT(namespace, collection, id) DO UPDATE SET
    data = excluded.data, updated_at = excluded.updated_at]. *)
Definition upsert (tbl : gmap (string * string * string) item_row)
    (key : string * string * string) (jsonData : json) (created updated : Z)
  : gmap (string * string * string) item_row :=
  match tbl !! key with
  | Some old =>
      <[key := {| data := jsonData;
                  created_at := created_at old;
                  updated_at := updated |}]> tbl
  | None =>
      <[key := {| data := jsonData;
                  created_at := created;
                  updated_at := updated |}]> tbl
  end.

(** [writeItem({ namespace, collection, id, data })].  [t_id] is the
    clock reading and [rnd] the six base-36 digits used when an id has
    to be made up; [now] is the clock reading that stamps the row. *)
Definition writeItem (db : database) (t_id : Z) (rnd : string) (now : Z)
    (namespace collection : string) (id : option string) (data : json)
  : database * write_result :=
  let itemId :=
    match id with
    | Some s => if truthy_str (Some s) then s else pretty t_id ++ "-" ++ rnd
    | None => pretty t_id ++ "-" ++ rnd
    end in
  let jsonData := data in
  (with_items db (upsert (items db) (namespace, collection, itemId) jsonData now now),
   {| wr_id := itemId; wr_created_at := now |}).

(** [updateItem({ namespace, collection, id, data })]; [None] is the
    [null] it returns for a missing item. *)
Definition updateItem (db : database) (now : Z)
    (namespace collection id : string) (data : json)
  : database * option update_result :=
  match items db !! (namespace, collection, id) with
  | None => (db, None)
  | Some existing =>
      let merged := spread2 (Db.data existing) data in
      (with_items db
         (<[(namespace, collection, id) :=
              {| Db.data := JObj merged;
                 created_at := created_at existing;
                 updated_at := now |}]> (items db)),
       Some {| ur_id := id; ur_updated_at := now; ur_data := merged |})
  end.

(** [deleteItem({ namespace, collection, id })]; the number is
    [deleted], the rows the statement changed. *)
Definition deleteItem (db : database) (namespace collection id : string)
  : database * Z :=
  (with_items db (delete (namespace, collection, id) (items db)),
   match items db !! (namespace, collection, id) with
   | Some _ => 1
   | None => 0
   end).

(** An item as [queryItems] and [searchItems] return it. *)
Record item : Type := {
  i_id : string;
  i_namespace : string;
  i_collection : string;
  i_data : json;
  i_created_at : Z;
  i_updated_at : Z;
}.

Definition to_item (kr : string * string * string * item_row) : item :=
  let '(namespace, collection, id, row) := kr in
  {| i_id := id; i_namespace := namespace; i_collection := collection;
     i_data := Db.data row; i_created_at := created_at row;
     i_updated_at := updated_at row |}.

(** [ORDER BY updated_at ASC] and [ORDER BY updated_at DESC]. *)
Definition by_updated (asc : bool)
    (a b : string * string * string * item_row) : Prop :=
  if asc then (updated_at a.2 <= updated_at b.2)%Z
  else (updated_at b.2 <= updated_at a.2)%Z.

#[global] Instance by_updated_dec asc a b : Decision (by_updated asc a b).
Proof. unfold by_updated. destruct asc; apply _. Defined.

(** [LIMIT limit OFFSET offset]: a negative limit is no limit, a
    negative offset is no offset. *)
Definition limit_offset {A : Type} (limit offset : Z) (rows : list A) : list A :=
  let rest := drop (Z.to_nat offset) rows in
  if (limit <? 0)%Z then rest else take (Z.to_nat limit) rest.

Definition in_collection (namespace collection : string)
    (kr : string * string * string * item_row) : bool :=
  String.eqb kr.1.1.1 namespace && String.eqb kr.1.1.2 collection.

(** [Object.entries(query)] when [query && typeof query === 'object']. *)
Definition query_entries (query : option json) : list (string * json) :=
  match query with
  | Some (JObj props) => props
  | Some (JArr xs) => index_from 0%N xs
  | _ => []
  end.

(** The rows of a table come in the order of [map_to_list]; rows with
    the same [updated_at] keep no order of their own in SQL, and
    nothing below depends on the one they get here. *)
Section Engine.

(** What the database engine decides: whether a value can be bound to
    a statement, whether [json_extract(data, '$.' || key) = value]
    holds of a row's data, and whether [data LIKE pattern] does. *)
Variable bindable : json -> bool.
Variable json_extract_eq : json -> string -> json -> bool.
Variable data_like : json -> string -> bool.

(** [queryItems({ namespace, collection, query, sort, limit, offset })];
    [None] when a filter value cannot be bound and the statement
    throws.  The other ways the statement can throw (a filter key
    that makes no JSON path, a limit or offset beyond 64 bits) are not
    modelled. *)
Definition queryItems (db : database) (namespace collection : string)
    (query : option json) (sort : option string) (limit offset : option Z)
  : option (list item) :=
  let sort := default "desc" sort in
  let limit := default 100%Z limit in
  let offset := default 0%Z offset in
  let entries := query_entries query in
  if forallb (fun kv => bindable kv.2) entries then
    let selected :=
      List.filter
        (fun kr =>
           in_collection namespace collection kr
           && forallb (fun kv => json_extract_eq (Db.data kr.2) kv.1 kv.2) entries)
        (map_to_list (items db)) in
    let ordered := merge_sort (by_updated (String.eqb sort "asc")) selected in
    Some (to_item <$> limit_offset limit offset ordered)
  else None.

(** [searchItems({ namespace, collection, term, limit })] *)
Definition searchItems (db : database) (namespace collection term : string)
    (limit : option Z) : list item :=
  let limit := default 50%Z limit in
  let selected :=
    List.filter
      (fun kr =>
         in_collection namespace collection kr
         && data_like (Db.data kr.2) ("%" ++ term ++ "%"))
      (map_to_list (items db)) in
  let ordered := merge_sort (by_updated false) selected in
  to_item <$> limit_offset limit 0%Z ordered.

End Engine.

(** [getStats()]: the distinct namespaces, in no order, and the number
    of rows. *)
Record stats : Type := {
  namespaces : gset string;
  totalItems : nat;
}.

Definition getStats (db : database) : stats :=
  {| namespaces := list_to_set ((fun kr => kr.1.1.1) <$> map_to_list (items db));
     totalItems := size (items db) |}.

End Storage.

(** ** HTTP requests and responses as the routers see them *)

Module Http.

(** The fields the routes read from the parsed JSON body. *)
Record body : Type := {
  b_namespace : option string;
  b_collection : option string;
  b_id : option string;
  b_data : option json;
  b_capabilities : option json;
  b_origin : option string;
}.

(** [origin_header] and [referer_header] are [req.get('Origin')] and
    [req.get('Referer')]. *)
Record request : Type := {
  origin_header : option string;
  referer_header : option string;
  req_body : body;
}.

Record response : Type := {
  status : Z;
  payload : json;
}.

Definition error_response (code : Z) (error message : string) : response :=
  {| status := code;
     payload := JObj [("error", JStr error); ("message", JStr message)] |}.

(** [res.json(obj)] *)
Definition ok_response (props : list (string * json)) : response :=
  {| status := 200; payload := JObj props |}.

End Http.

Import Http.

(** ** agent/permissions.js *)

Module Permissions.

Definition default_capabilities : json :=
  JArr [JStr "storage.local"; JStr "storage.query"; JStr "storage.search"].

Record grant : Type := {
  g_granted : bool;
  g_namespace : string;
  g_origin : string;
  g_capabilities : json;
}.

(** [requestPermission(origin, namespace, capabilities)]:
    [INSERT OR REPLACE INTO permissions]. *)
Definition requestPermission (db : database) (now : Z)
    (origin namespace : string) (capabilities : option json)
  : database * grant :=
  let caps :=
    match capabilities with
    | Some c => if truthy c then c else default_capabilities
    | None => default_capabilities
    end in
  (with_permissions db
     (<[(origin, namespace) :=
          {| Db.capabilities := caps; granted_at := now |}]> (permissions db)),
   {| g_granted := true; g_namespace := namespace; g_origin := origin;
      g_capabilities := caps |}).

Inductive check : Type :=
| Granted (capabilities : json) (granted_at : Z)
| NotGranted.

Definition granted (c : check) : bool :=
  match c with
  | Granted _ _ => true
  | NotGranted => false
  end.

(** [checkPermission(origin, namespace)] *)
Definition checkPermission (db : database) (origin namespace : string) : check :=
  match permissions db !! (origin, namespace) with
  | Some row => Granted (Db.capabilities row) (granted_at row)
  | None => NotGranted
  end.

(** What a middleware does: hand over to the next handler, or answer. *)
Inductive middleware : Type :=
| Next
| Respond (r : response).

Definition dquote : string := String "034"%char EmptyString.

(** [req.get('Origin') || req.get('Referer') || 'unknown'] *)
Definition request_origin (req : request) : string :=
  match or_str (or_str (origin_header req) (referer_header req)) (Some "unknown") with
  | Some o => o
  | None => "unknown"
  end.

Definition isLocalhost (origin : string) : bool :=
  includes origin "localhost" || includes origin "127.0.0.1"
  || String.eqb origin "unknown".

(** [requirePermission(req, res, next)] *)
Definition requirePermission (db : database) (req : request) : middleware :=
  let origin := request_origin req in
  match b_namespace (req_body req) with
  | None => Next
  | Some namespace =>
      if negb (truthy_str (Some namespace)) then Next
      else
        let perm := checkPermission db origin namespace in
        if negb (granted perm) && negb (isLocalhost origin) then
          Respond (error_response 403 "Permission denied"
            ("Origin " ++ dquote ++ origin ++ dquote ++
             " has not been granted access to namespace " ++
             dquote ++ namespace ++ dquote ++
             ". Call /uhp/v1/permissions/request first."))
        else Next
  end.

(** [revokePermission(origin, namespace)]; the boolean is [revoked]. *)
Definition revokePermission (db : database) (origin namespace : string)
  : database * bool :=
  (with_permissions db (delete (origin, namespace) (permissions db)),
   match permissions db !! (origin, namespace) with
   | Some _ => true
   | None => false
   end).

(** A grant as [listPermissions] returns it. *)
Record listed : Type := {
  l_origin : string;
  l_namespace : string;
  l_capabilities : json;
  l_granted_at : Z;
}.

Definition to_listed (kr : string * string * permission_row) : listed :=
  let '(origin, namespace, row) := kr in
  {| l_origin := origin; l_namespace := namespace;
     l_capabilities := Db.capabilities row; l_granted_at := granted_at row |}.

(** [listPermissions(origin)]: the grants of [origin], or all of them
    when [origin] is falsy; the rows come in the order of
    [map_to_list]. *)
Definition listPermissions (db : database) (origin : option string)
  : list listed :=
  let rows := map_to_list (permissions db) in
  to_listed <$>
    (match origin with
     | Some o =>
         if truthy_str (Some o)
         then List.filter (fun kr => String.eqb kr.1.1 o) rows
         else rows
     | None => rows
     end).

End Permissions.

(** ** agent/routes/permissions.js *)

Module PermissionRoutes.

Import Permissions.

(** [req.get('Origin') || req.get('Referer') || req.body.origin || 'unknown'] *)
Definition route_origin (req : request) : string :=
  match or_str (or_str (or_str (origin_header req) (referer_header req))
                       (b_origin (req_body req)))
               (Some "unknown") with
  | Some o => o
  | None => "unknown"
  end.

Definition grant_props (g : grant) : list (string * json) :=
  [("granted", JBool (g_granted g)); ("namespace", JStr (g_namespace g));
   ("origin", JStr (g_origin g)); ("capabilities", g_capabilities g)].

(** [POST /uhp/v1/permissions/request] *)
Definition post_request (db : database) (now : Z) (req : request)
  : database * response :=
  let origin := route_origin req in
  match b_namespace (req_body req) with
  | Some namespace =>
      if negb (truthy_str (Some namespace)) then
        (db, error_response 400 "INVALID_REQUEST"
               "Missing required field: namespace")
      else
        let '(db', result) :=
          requestPermission db now origin namespace
            (b_capabilities (req_body req)) in
        (db', ok_response
                (spread [("success", JBool true)] (JObj (grant_props result))))
  | None =>
      (db, error_response 400 "INVALID_REQUEST"
             "Missing required field: namespace")
  end.

Definition listed_json (g : listed) : json :=
  JObj [("origin", JStr (l_origin g)); ("namespace", JStr (l_namespace g));
        ("capabilities", l_capabilities g); ("granted_at", JNum (l_granted_at g))].

(** [GET /uhp/v1/permissions/list]; [query_origin] is
    [req.query.origin]. *)
Definition get_list (db : database) (query_origin : option string) : response :=
  let origin := or_str query_origin None in
  ok_response [("success", JBool true);
               ("permissions", JArr (listed_json <$> listPermissions db origin))].

(** [POST /uhp/v1/permissions/revoke] *)
Definition post_revoke (db : database) (req : request) : database * response :=
  let origin := route_origin req in
  match b_namespace (req_body req) with
  | Some namespace =>
      if negb (truthy_str (Some namespace)) then
        (db, error_response 400 "INVALID_REQUEST"
               "Missing required field: namespace")
      else
        let '(db', revoked) := revokePermission db origin namespace in
        (db', ok_response [("success", JBool true); ("revoked", JBool revoked)])
  | None =>
      (db, error_response 400 "INVALID_REQUEST"
             "Missing required field: namespace")
  end.

End PermissionRoutes.

(** ** The storage router: [router.use(requirePermission)], then the
    handler of [/update] *)

Module StorageRoutes.

Import Storage Permissions.

Definition update_props (r : update_result) : list (string * json) :=
  [("id", JStr (ur_id r)); ("updated_at", JNum (ur_updated_at r));
   ("data", JObj (ur_data r))].

(** Handler of [POST /uhp/v1/storage/update]. *)
Definition post_update (db : database) (now : Z) (req : request)
  : database * response :=
  let b := req_body req in
  match b_namespace b, b_collection b, b_id b, b_data b with
  | Some namespace, Some collection, Some id, Some data =>
      if negb (truthy_str (Some namespace)) || negb (truthy_str (Some collection))
         || negb (truthy_str (Some id)) || negb (truthy data) then
        (db, error_response 400 "INVALID_REQUEST"
               "Missing required fields: namespace, collection, id, data")
      else
        match updateItem db now namespace collection id data with
        | (db', None) => (db', error_response 404 "NOT_FOUND" "Item not found")
        | (db', Some result) =>
            (db', ok_response
                    (spread [("success", JBool true)] (JObj (update_props result))))
        end
  | _, _, _, _ =>
      (db, error_response 400 "INVALID_REQUEST"
             "Missing required fields: namespace, collection, id, data")
  end.

(** A request to a storage path runs the permission middleware first. *)
Definition guarded (db : database) (req : request)
    (handler : database * response) : database * response :=
  match requirePermission db req with
  | Respond r => (db, r)
  | Next => handler
  end.

Definition storage_update (db : database) (now : Z) (req : request)
  : database * response :=
  guarded db req (post_update db now req).

Definition write_props (r : write_result) : list (string * json) :=
  [("id", JStr (wr_id r)); ("created_at", JNum (wr_created_at r))].

(** Handler of [POST /uhp/v1/storage/write]. *)
Definition post_write (db : database) (t_id : Z) (rnd : string) (now : Z)
    (req : request) : database * response :=
  let b := req_body req in
  match b_namespace b, b_collection b, b_data b with
  | Some namespace, Some collection, Some data =>
      if negb (truthy_str (Some namespace)) || negb (truthy_str (Some collection))
         || negb (truthy data) then
        (db, error_response 400 "INVALID_REQUEST"
               "Missing required fields: namespace, collection, data")
      else
        let '(db', result) :=
          writeItem db t_id rnd now namespace collection (b_id b) data in
        (db', ok_response
                (spread [("success", JBool true)] (JObj (write_props result))))
  | _, _, _ =>
      (db, error_response 400 "INVALID_REQUEST"
             "Missing required fields: namespace, collection, data")
  end.

(** Handler of [POST /uhp/v1/storage/delete]. *)
Definition post_delete (db : database) (req : request) : database * response :=
  let b := req_body req in
  match b_namespace b, b_collection b, b_id b with
  | Some namespace, Some collection, Some id =>
      if negb (truthy_str (Some namespace)) || negb (truthy_str (Some collection))
         || negb (truthy_str (Some id)) then
        (db, error_response 400 "INVALID_REQUEST"
               "Missing required fields: namespace, collection, id")
      else
        let '(db', deleted) := deleteItem db namespace collection id in
        (db', ok_response
                (spread [("success", JBool true)]
                        (JObj [("deleted", JNum deleted)])))
  | _, _, _ =>
      (db, error_response 400 "INVALID_REQUEST"
             "Missing required fields: namespace, collection, id")
  end.

Definition storage_write (db : database) (t_id : Z) (rnd : string) (now : Z)
    (req : request) : database * response :=
  guarded db req (post_write db t_id rnd now req).

Definition storage_delete (db : database) (req : request)
  : database * response :=
  guarded db req (post_delete db req).

End StorageRoutes.

(** ** The crypto envelope of the sync layer

    The agent ships no implementation of the sync layer; the envelope
    below follows the protocol text (PROTOCOL.md, section 7.3) and the
    contract of the specification (section 4.1).  AES-256-GCM,
    HMAC-SHA256 and the canonical serialisation are an interface. *)

Module Envelope.

Definition bytes : Type := list Byte.byte.

Inductive operation : Type := Write | Update | Delete.

(** Modelled from the spec: the ChangeEntry of the data model, of which
    the agent has no declaration. *)
Record ChangeEntry : Type := {
  device_id : string;
  seq : Z;
  op : operation;
  namespace : string;
  collection : string;
  item_id : string;
  entry_payload : option json;
  timestamp : Z;
}.

(** Modelled from the spec: the EncryptedBlob of the data model, of
    which the agent has no declaration. *)
Record EncryptedBlob : Type := {
  nonce : bytes;
  ciphertext : bytes;
  mac : bytes;
  blob_seq : Z;
  blob_device_id : string;
  blob_timestamp : Z;
}.

Inductive error : Type := IntegrityError.

(** The primitives the envelope is built from. *)
Class Primitives : Type := {
  serialize : ChangeEntry -> bytes;
  deserialize : bytes -> option ChangeEntry;
  aead_encrypt : bytes -> bytes -> bytes -> bytes;
  aead_decrypt : bytes -> bytes -> bytes -> option bytes;
  hmac : bytes -> bytes -> bytes;
}.

(** Modelled from the spec: the constant-time comparison of two tags,
    which looks at every byte whatever the earlier ones were. *)
Fixpoint ct_equal_from (acc : bool) (a b : bytes) : bool :=
  match a, b with
  | [], [] => acc
  | x :: a', y :: b' => ct_equal_from (acc && Byte.eqb x y) a' b'
  | _, _ => false
  end.

Definition ct_equal (a b : bytes) : bool := ct_equal_from true a b.

(** Modelled from the spec: [encrypt(entry, encryption_key, signing_key)],
    absent from the agent; [fresh_nonce] is the 12 random bytes. *)
Definition encrypt `{Primitives} (entry : ChangeEntry) (fresh_nonce : bytes)
    (encryption_key signing_key : bytes) : EncryptedBlob :=
  let plaintext := serialize entry in
  let c := aead_encrypt encryption_key fresh_nonce plaintext in
  {| nonce := fresh_nonce;
     ciphertext := c;
     mac := hmac signing_key (fresh_nonce ++ c)%list;
     blob_seq := seq entry;
     blob_device_id := device_id entry;
     blob_timestamp := timestamp entry |}.

(** Modelled from the spec: [decrypt(blob, encryption_key, signing_key)],
    absent from the agent: the tag is recomputed and compared before
    any decryption, and every mismatch is an IntegrityError. *)
Definition decrypt `{Primitives} (blob : EncryptedBlob)
    (encryption_key signing_key : bytes) : ChangeEntry + error :=
  if ct_equal (hmac signing_key (nonce blob ++ ciphertext blob)%list) (mac blob) then
    match aead_decrypt encryption_key (nonce blob) (ciphertext blob) with
    | Some plaintext =>
        match deserialize plaintext with
        | Some entry => inl entry
        | None => inr IntegrityError
        end
    | None => inr IntegrityError
    end
  else inr IntegrityError.

(** A small instance of the interface, to run the envelope on: the
    canonical form of an entry is its item id, the cipher reverses the
    plaintext, and the tag is the key followed by the message. *)
Definition toy_entry : ChangeEntry :=
  {| device_id := "d1a2b3c4"; seq := 1; op := Write;
     namespace := "x.com"; collection := "bookmarks"; item_id := "t1";
     entry_payload := Some (JObj [("text", JStr "a")]); timestamp := 1000 |}.

Definition toy_primitives : Primitives :=
  {| serialize := fun e => list_byte_of_string (item_id e);
     deserialize := fun b =>
       Some {| device_id := device_id toy_entry; seq := seq toy_entry;
               op := op toy_entry; namespace := namespace toy_entry;
               collection := collection toy_entry;
               item_id := string_of_list_byte b;
               entry_payload := entry_payload toy_entry;
               timestamp := timestamp toy_entry |};
     aead_encrypt := fun _ _ plaintext => rev plaintext;
     aead_decrypt := fun _ _ c => Some (rev c);
     hmac := fun key message => (key ++ message)%list |}.

End Envelope.

(** ** Tampering with a blob *)

Module Tamper.

Import Envelope.






End Tamper.

(** ** The order in which an ordinary object holds its keys *)

Module KeyOrder.

(** [key_before k1 k2]: [k1] may stand before [k2] in an object, an
    array index before a larger index and before any other key. *)
Definition key_before (k1 k2 : string) : Prop :=
  match array_index k1, array_index k2 with
  | Some a, Some b => (a < b)%N
  | Some _, None => True
  | None, Some _ => False
  | None, None => True
  end.

(** The keys of [props] are all different and in the order in which an
    object enumerates them. *)
Definition ordered (props : list (string * json)) : Prop :=
  NoDup props.*1 /\ StronglySorted key_before props.*1.

End KeyOrder.

(** * Properties *)

(** ** JavaScript helpers *)

Section JsFacts.

Implicit Types (k : string) (v : json) (props : list (string * json)).

Lemma prefix_app (needle hay : string) :
  String.prefix needle hay = true <-> exists post, hay = needle ++ post.
Proof.
  revert needle. induction hay as [|c hay IH]; intros [|d needle]; simpl.
  - split; [exists ""; reflexivity | reflexivity].
  - split; [discriminate | intros [post H]; discriminate].
  - split; [intros _; eexists; reflexivity | reflexivity].
  - destruct (ascii_dec d c) as [->|Hne].
    + rewrite IH. split; intros [post H]; exists post; [ by rewrite H | by inversion H ].
    + split; [discriminate | intros [post H]; inversion H; congruence].
Qed.

(** [includes] is the substring test. *)
Lemma includes_substring (hay needle : string) :
  includes hay needle = true <-> exists pre post, hay = pre ++ needle ++ post.
Proof.
  induction hay as [|c hay IH]; cbn [includes].
  - rewrite orb_false_r, prefix_app. split.
    + intros [post H]. exists "", post. exact H.
    + intros [[|d pre] [post H]]; [exists post; exact H | discriminate].
  - rewrite orb_true_iff, prefix_app, IH. split.
    + intros [[post H] | (pre & post & H)].
      * exists "", post. exact H.
      * exists (String c pre), post. simpl. by rewrite H.
    + intros [[|d pre] [post H]].
      * left. exists post. exact H.
      * right. exists pre, post. simpl in H. by inversion H.
Qed.

Lemma has_prop_false_get k props :
  has_prop k props = false -> get_prop k props = None.
Proof.
  induction props as [|[k' w] rest IH]; simpl; [done|].
  intros [Hk Hrest]%orb_false_iff. by rewrite (IH Hrest), Hk.
Qed.

Lemma get_prop_overwrite_eq k v props :
  has_prop k props = true -> get_prop k (overwrite k v props) = Some v.
Proof.
  induction props as [|[k' w] rest IH]; simpl; [done|].
  destruct (String.eqb k k') eqn:E; simpl.
  - intros _. rewrite E. destruct (has_prop k rest) eqn:Hr.
    + by rewrite IH.
    + assert (get_prop k (overwrite k v rest) = None) as ->; [|done].
      clear IH. induction rest as [|[k2 w2] rest IH]; simpl in *; [done|].
      apply orb_false_iff in Hr as [H1 H2]. rewrite H1. simpl.
      by rewrite (IH H2), H1.
  - intros Hr. by rewrite (IH Hr).
Qed.

Lemma get_prop_overwrite_ne k k' v props :
  k' <> k -> get_prop k' (overwrite k v props) = get_prop k' props.
Proof.
  intros Hne. induction props as [|[k2 w] rest IH]; simpl; [done|].
  destruct (String.eqb k k2) eqn:E; simpl; rewrite IH; [|done].
  apply String.eqb_eq in E. subst k2.
  by apply String.eqb_neq in Hne as ->.
Qed.

Lemma get_prop_insert_index_eq n k v props :
  has_prop k props = false -> get_prop k (insert_index n k v props) = Some v.
Proof.
  induction props as [|[k' w] rest IH]; simpl.
  - intros _. by rewrite String.eqb_refl.
  - intros [Hk Hrest]%orb_false_iff.
    assert (get_prop k ((k, v) :: (k', w) :: rest) = Some v) as Hhere.
    { simpl. by rewrite (has_prop_false_get _ _ Hrest), Hk, String.eqb_refl. }
    destruct (array_index k') as [m|]; [|exact Hhere].
    destruct (n <? m)%N; [exact Hhere|].
    simpl. by rewrite (IH Hrest).
Qed.

Lemma get_prop_insert_index_ne n k k' v props :
  k' <> k -> get_prop k' (insert_index n k v props) = get_prop k' props.
Proof.
  intros Hne. apply String.eqb_neq in Hne.
  assert (forall l, get_prop k' ((k, v) :: l) = get_prop k' l) as Hhere.
  { intros l. simpl. rewrite Hne. by destruct (get_prop k' l). }
  induction props as [|[k2 w] rest IH]; [by apply Hhere|].
  simpl insert_index.
  destruct (array_index k2) as [m|]; [|by apply Hhere].
  destruct (n <? m)%N; [by apply Hhere|].
  simpl. by rewrite IH.
Qed.

Lemma get_prop_app_last k k' v props :
  get_prop k' (props ++ [(k, v)]) =
  if String.eqb k' k then Some v else get_prop k' props.
Proof.
  induction props as [|[k2 w] rest IH]; simpl.
  - by destruct (String.eqb k' k).
  - rewrite IH. destruct (String.eqb k' k); [done|].
    by destruct (get_prop k' rest).
Qed.

(** Defining a property sets its value and leaves the others alone. *)
Lemma get_prop_define k k' v props :
  get_prop k' (define_prop props (k, v)) =
  if String.eqb k' k then Some v else get_prop k' props.
Proof.
  unfold define_prop. destruct (String.eqb k' k) eqn:E.
  - apply String.eqb_eq in E. subst k'.
    destruct (has_prop k props) eqn:H.
    + by apply get_prop_overwrite_eq.
    + destruct (array_index k) as [n|].
      * by apply get_prop_insert_index_eq.
      * by rewrite get_prop_app_last, String.eqb_refl.
  - apply String.eqb_neq in E.
    destruct (has_prop k props).
    + by apply get_prop_overwrite_ne.
    + destruct (array_index k) as [n|].
      * by apply get_prop_insert_index_ne.
      * rewrite get_prop_app_last. by apply String.eqb_neq in E as ->.
Qed.

Lemma get_prop_fold k (ps : list (string * json)) props :
  get_prop k (fold_left define_prop ps props) =
  match get_prop k ps with
  | Some v => Some v
  | None => get_prop k props
  end.
Proof.
  revert props.
  induction ps as [|[k1 v1] ps IH]; intros props; cbn [fold_left get_prop]; [done|].
  rewrite IH, get_prop_define.
  destruct (get_prop k ps); [done|]. by destruct (String.eqb k k1).
Qed.

(** The properties of [{ ...a, ...b }]: those of [b], and those of [a]
    that [b] does not have. *)
Lemma get_prop_spread2 k (a b : json) :
  get_prop k (spread2 a b) =
  match get_prop k (own_props b) with
  | Some v => Some v
  | None => get_prop k (own_props a)
  end.
Proof.
  unfold spread2, spread. rewrite !get_prop_fold. simpl.
  by destruct (get_prop k (own_props a)).
Qed.

(** *** The result of a spread is an object: no key occurs twice *)

Lemma has_prop_elem_of k props :
  has_prop k props = true <-> k ∈ props.*1.
Proof.
  induction props as [|[k' w] rest IH]; simpl.
  - split; [discriminate | by intros ?%elem_of_nil].
  - rewrite orb_true_iff, elem_of_cons, IH, String.eqb_eq. done.
Qed.

Lemma overwrite_keys k v props : (overwrite k v props).*1 = props.*1.
Proof.
  induction props as [|[k' w] rest IH]; [done|].
  cbn [overwrite]. destruct (String.eqb k k'); rewrite !fmap_cons, IH; done.
Qed.

Lemma insert_index_perm n k v props :
  insert_index n k v props ≡ₚ (k, v) :: props.
Proof.
  induction props as [|[k' w] rest IH]; simpl; [done|].
  destruct (array_index k') as [m|]; [|done].
  destruct (n <? m)%N; [done|].
  rewrite IH. apply Permutation_swap.
Qed.

Lemma define_prop_NoDup k v props :
  NoDup props.*1 -> NoDup (define_prop props (k, v)).*1.
Proof.
  intros Hnd. unfold define_prop. destruct (has_prop k props) eqn:H.
  - by rewrite overwrite_keys.
  - assert (k ∉ props.*1) as Hk.
    { rewrite <- has_prop_elem_of. by rewrite H. }
    destruct (array_index k) as [n|].
    + rewrite insert_index_perm. simpl. by apply NoDup_cons.
    + rewrite fmap_app. simpl. apply NoDup_app. split; [done|].
      split; [|apply NoDup_singleton].
      intros x Hx ->%list_elem_of_singleton. contradiction.
Qed.

Lemma fold_define_NoDup (ps : list (string * json)) props :
  NoDup props.*1 -> NoDup (fold_left define_prop ps props).*1.
Proof.
  revert props.
  induction ps as [|[k v] ps IH]; intros props Hnd; cbn [fold_left]; [done|].
  by apply IH, define_prop_NoDup.
Qed.

Lemma spread2_NoDup (a b : json) : NoDup (spread2 a b).*1.
Proof.
  unfold spread2, spread. apply fold_define_NoDup, fold_define_NoDup.
  simpl. constructor.
Qed.

End JsFacts.

Example spread2_order :
  spread2 (JObj [("b", JNum 1); ("a", JNum 2)])
          (JObj [("1", JNum 3); ("b", JNum 4)])
  = [("1", JNum 3); ("b", JNum 4); ("a", JNum 2)].
Proof. vm_compute. reflexivity. Qed.

Example spread2_array :
  spread2 (JArr [JNum 7; JNum 8]) (JObj [])
  = [("0", JNum 7); ("1", JNum 8)].
Proof. vm_compute. reflexivity. Qed.

(** ** The storage engine *)

Section StorageFacts.

Import Storage.

Implicit Types (db : database) (data : json).

Lemma upsert_lookup_eq (tbl : gmap (string * string * string) item_row)
    key data created updated :
  upsert tbl key data created updated !! key =
  Some {| Db.data := data;
          created_at := match tbl !! key with
                        | Some old => created_at old
                        | None => created
                        end;
          updated_at := updated |}.
Proof.
  unfold upsert. destruct (tbl !! key); by rewrite lookup_insert_eq.
Qed.

Lemma upsert_lookup_ne (tbl : gmap (string * string * string) item_row)
    key key' data created updated :
  key' <> key -> upsert tbl key data created updated !! key' = tbl !! key'.
Proof.
  intros Hne. unfold upsert. destruct (tbl !! key); by rewrite lookup_insert_ne.
Qed.

Lemma database_eq db1 db2 :
  items db1 = items db2 -> permissions db1 = permissions db2 -> db1 = db2.
Proof. destruct db1, db2; simpl; congruence. Qed.

Lemma writeItem_id db t_id rnd now ns col s data :
  s <> "" ->
  writeItem db t_id rnd now ns col (Some s) data =
  (with_items db (upsert (items db) (ns, col, s) data now now),
   {| wr_id := s; wr_created_at := now |}).
Proof.
  intros Hs. unfold writeItem. simpl.
  by apply String.eqb_neq in Hs as ->.
Qed.

End StorageFacts.

(** C1, as stated, fails: a second identical write one clock tick
    later stores a different [updated_at], so the stored item is not
    equal to the one left by the first write. *)
Lemma writeItem_twice_restamps :
  let data := JObj [("text", JStr "a")] in
  let db1 := fst (Storage.writeItem Db.empty 0 "" 1000
                    "x.com" "bookmarks" (Some "t1") data) in
  let db2 := fst (Storage.writeItem db1 0 "" 1002
                    "x.com" "bookmarks" (Some "t1") data) in
  items db1 !! ("x.com", "bookmarks", "t1") =
    Some {| Db.data := data; created_at := 1000; updated_at := 1000 |}
  /\ items db2 !! ("x.com", "bookmarks", "t1") =
    Some {| Db.data := data; created_at := 1000; updated_at := 1002 |}
  /\ items db2 !! ("x.com", "bookmarks", "t1")
     <> items db1 !! ("x.com", "bookmarks", "t1").
Proof.
  cbv zeta. rewrite !writeItem_id by discriminate.
  cbn [fst items with_items Db.empty].
  rewrite !upsert_lookup_eq, lookup_empty. cbn [created_at].
  repeat split. discriminate.
Qed.

(** C1 (amended): writing the same data under the same non-empty id a
    second time keeps the item's data and [created_at], touches no
    other row and no grant, and sets [updated_at] to the clock reading
    of the second call; when the two readings coincide the database is
    left exactly as it was. *)
Theorem writeItem_twice db t1 rnd1 now1 t2 rnd2 now2 ns col id data :
  id <> "" ->
  let db1 := fst (Storage.writeItem db t1 rnd1 now1 ns col (Some id) data) in
  let db2 := fst (Storage.writeItem db1 t2 rnd2 now2 ns col (Some id) data) in
  exists row1,
    items db1 !! (ns, col, id) = Some row1
    /\ Db.data row1 = data
    /\ updated_at row1 = now1
    /\ items db2 !! (ns, col, id) =
         Some {| Db.data := data; created_at := created_at row1;
                 updated_at := now2 |}
    /\ (forall key, key <> (ns, col, id) -> items db2 !! key = items db1 !! key)
    /\ permissions db2 = permissions db1
    /\ (now2 = now1 -> db2 = db1).
Proof.
  intros Hid. cbv zeta. rewrite !writeItem_id by done.
  cbn [fst items permissions with_items].
  eexists. split; [apply upsert_lookup_eq|]. cbn [Db.data created_at updated_at].
  split; [done|]. split; [done|].
  split; [by rewrite !upsert_lookup_eq|].
  split; [intros key Hkey; by rewrite upsert_lookup_ne|].
  split; [done|].
  intros ->. apply database_eq; [|done]. cbn [items with_items].
  apply map_eq. intros key. destruct (decide (key = (ns, col, id))) as [->|Hne].
  - by rewrite !upsert_lookup_eq.
  - by rewrite upsert_lookup_ne.
Qed.

Lemma writeItem_twice_witness :
  "t1" <> ""
  /\ let data := JObj [("text", JStr "a")] in
     let db1 := fst (Storage.writeItem Db.empty 0 "" 1000
                       "x.com" "bookmarks" (Some "t1") data) in
     let db2 := fst (Storage.writeItem db1 0 "" 1000
                       "x.com" "bookmarks" (Some "t1") data) in
     exists row1,
       items db1 !! ("x.com", "bookmarks", "t1") = Some row1
       /\ Db.data row1 = data
       /\ updated_at row1 = 1000
       /\ items db2 !! ("x.com", "bookmarks", "t1") =
            Some {| Db.data := data; created_at := created_at row1;
                    updated_at := 1000 |}
       /\ (forall key, key <> ("x.com", "bookmarks", "t1") ->
             items db2 !! key = items db1 !! key)
       /\ permissions db2 = permissions db1
       /\ (1000 = 1000 -> db2 = db1).
Proof.
  split; [discriminate|].
  apply (writeItem_twice Db.empty 0 "" 1000 0 "" 1000 "x.com" "bookmarks" "t1").
  discriminate.
Defined.

(** Without an id the engine makes one up from the clock and a random
    suffix, so a repeated write adds a second item. *)
Example writeItem_without_id :
  let data := JObj [("text", JStr "a")] in
  let '(db1, r1) := Storage.writeItem Db.empty 1000 "k3x9qa" 1000
                      "x.com" "bookmarks" None data in
  let '(db2, r2) := Storage.writeItem db1 1002 "p07zzb" 1002
                      "x.com" "bookmarks" None data in
  Storage.wr_id r1 = "1000-k3x9qa" /\ Storage.wr_id r2 = "1002-p07zzb"
  /\ size (items db1) = 1%nat /\ size (items db2) = 2%nat.
Proof. vm_compute. auto. Qed.

Section UpdateFacts.

Import Storage StorageRoutes.

Lemma updateItem_found db now ns col id data existing :
  items db !! (ns, col, id) = Some existing ->
  updateItem db now ns col id data =
  (with_items db
     (<[(ns, col, id) :=
          {| Db.data := JObj (spread2 (Db.data existing) data);
             created_at := created_at existing;
             updated_at := now |}]> (items db)),
   Some {| ur_id := id; ur_updated_at := now;
           ur_data := spread2 (Db.data existing) data |}).
Proof. intros H. unfold updateItem. by rewrite H. Qed.

Lemma updateItem_not_found db now ns col id data :
  items db !! (ns, col, id) = None ->
  updateItem db now ns col id data = (db, None).
Proof. intros H. unfold updateItem. by rewrite H. Qed.

(** The handler of [/update] once the body has passed validation. *)
Lemma post_update_valid db now req ns col id data :
  b_namespace (req_body req) = Some ns ->
  b_collection (req_body req) = Some col ->
  b_id (req_body req) = Some id ->
  b_data (req_body req) = Some data ->
  ns <> "" -> col <> "" -> id <> "" -> truthy data = true ->
  post_update db now req =
  match updateItem db now ns col id data with
  | (db', None) => (db', error_response 404 "NOT_FOUND" "Item not found")
  | (db', Some result) =>
      (db', ok_response
              (spread [("success", JBool true)] (JObj (update_props result))))
  end.
Proof.
  intros Hns Hcol Hid Hdata Hn Hc Hi Ht. unfold post_update.
  rewrite Hns, Hcol, Hid, Hdata. cbn [truthy_str].
  apply String.eqb_neq in Hn as ->. apply String.eqb_neq in Hc as ->.
  apply String.eqb_neq in Hi as ->. by rewrite Ht.
Qed.

End UpdateFacts.

(** C2: on an existing item with stored data [E], a partial update
    with patch [D] stores an object, no key twice, in which every
    top-level key of [D] carries the value [D] gives it, whatever [E]
    held there, and every other key carries what it had in [E]; the
    row keeps its [created_at], the other rows are untouched, and the
    merged object is the one returned, by [updateItem] and by the
    [/update] handler. *)
Theorem updateItem_merges_top_level db now ns col id (D : json) existing :
  items db !! (ns, col, id) = Some existing ->
  exists merged,
    Storage.updateItem db now ns col id D =
      (with_items db
         (<[(ns, col, id) :=
              {| Db.data := JObj merged;
                 created_at := created_at existing;
                 updated_at := now |}]> (items db)),
       Some {| Storage.ur_id := id; Storage.ur_updated_at := now;
               Storage.ur_data := merged |})
    /\ NoDup merged.*1
    /\ (forall k v, get_prop k (own_props D) = Some v ->
                    get_prop k merged = Some v)
    /\ (forall k, get_prop k (own_props D) = None ->
                  get_prop k merged = get_prop k (own_props (Db.data existing)))
    /\ (forall req,
          b_namespace (req_body req) = Some ns ->
          b_collection (req_body req) = Some col ->
          b_id (req_body req) = Some id ->
          b_data (req_body req) = Some D ->
          ns <> "" -> col <> "" -> id <> "" -> truthy D = true ->
          snd (StorageRoutes.post_update db now req) =
            ok_response [("success", JBool true); ("id", JStr id);
                         ("updated_at", JNum now); ("data", JObj merged)]).
Proof.
  intros Hex. exists (spread2 (Db.data existing) D).
  split; [by apply updateItem_found|].
  split; [apply spread2_NoDup|].
  split; [|split].
  - intros k v Hk. by rewrite get_prop_spread2, Hk.
  - intros k Hk. by rewrite get_prop_spread2, Hk.
  - intros req Hns Hcol Hid Hdata Hn Hc Hi Ht.
    rewrite (post_update_valid _ _ _ _ _ _ _ Hns Hcol Hid Hdata Hn Hc Hi Ht).
    by rewrite (updateItem_found _ _ _ _ _ _ _ Hex).
Qed.

Lemma updateItem_merges_top_level_witness :
  let E := JObj [("text", JStr "a"); ("tags", JArr [JStr "x"; JStr "y"]);
                 ("meta", JObj [("n", JNum 1); ("m", JNum 2)])] in
  let D := JObj [("tags", JArr [JStr "z"]); ("meta", JObj [("n", JNum 5)])] in
  let row := {| Db.data := E; created_at := 1000; updated_at := 1000 |} in
  let db := with_items Db.empty {[ ("x.com", "bookmarks", "t1") := row ]} in
  items db !! ("x.com", "bookmarks", "t1") = Some row
  /\ exists merged,
       Storage.updateItem db 2000 "x.com" "bookmarks" "t1" D =
         (with_items db
            (<[("x.com", "bookmarks", "t1") :=
                 {| Db.data := JObj merged; created_at := 1000;
                    updated_at := 2000 |}]> (items db)),
          Some {| Storage.ur_id := "t1"; Storage.ur_updated_at := 2000;
                  Storage.ur_data := merged |})
       /\ NoDup merged.*1
       /\ (forall k v, get_prop k (own_props D) = Some v ->
                       get_prop k merged = Some v)
       /\ (forall k, get_prop k (own_props D) = None ->
                     get_prop k merged = get_prop k (own_props E)).
Proof.
  cbv zeta. split; [apply lookup_singleton_eq|].
  destruct (updateItem_merges_top_level
              (with_items Db.empty
                 {[ ("x.com", "bookmarks", "t1") :=
                      {| Db.data :=
                           JObj [("text", JStr "a");
                                 ("tags", JArr [JStr "x"; JStr "y"]);
                                 ("meta", JObj [("n", JNum 1); ("m", JNum 2)])];
                         created_at := 1000; updated_at := 1000 |} ]})
              2000 "x.com" "bookmarks" "t1"
              (JObj [("tags", JArr [JStr "z"]); ("meta", JObj [("n", JNum 5)])])
              _ (lookup_singleton_eq _ _))
    as (merged & Hupd & Hnd & HD & HE & _).
  exists merged. auto.
Defined.

(** The merge on a concrete document: the nested object and the array
    of the patch replace the stored ones whole. *)
Example updateItem_nested_replaced :
  spread2 (JObj [("text", JStr "a"); ("tags", JArr [JStr "x"; JStr "y"]);
                 ("meta", JObj [("n", JNum 1); ("m", JNum 2)])])
          (JObj [("tags", JArr [JStr "z"]); ("meta", JObj [("n", JNum 5)])])
  = [("text", JStr "a"); ("tags", JArr [JStr "z"]);
     ("meta", JObj [("n", JNum 5)])].
Proof. vm_compute. reflexivity. Qed.

(** C10: [updateItem] answers [null] exactly when the item is missing;
    it then leaves the database as it was, and the [/update] handler,
    given a body that passes validation, answers 404 NOT_FOUND, as
    does the whole route when the permission middleware lets the
    request through. *)
Theorem updateItem_missing_detected db now ns col id (data : json) :
  (is_Some (snd (Storage.updateItem db now ns col id data))
     <-> is_Some (items db !! (ns, col, id)))
  /\ (items db !! (ns, col, id) = None ->
      Storage.updateItem db now ns col id data = (db, None)
      /\ forall req,
           b_namespace (req_body req) = Some ns ->
           b_collection (req_body req) = Some col ->
           b_id (req_body req) = Some id ->
           b_data (req_body req) = Some data ->
           ns <> "" -> col <> "" -> id <> "" -> truthy data = true ->
           StorageRoutes.post_update db now req =
             (db, error_response 404 "NOT_FOUND" "Item not found")
           /\ (Permissions.requirePermission db req = Permissions.Next ->
               StorageRoutes.storage_update db now req =
                 (db, error_response 404 "NOT_FOUND" "Item not found"))).
Proof.
  split.
  - destruct (items db !! (ns, col, id)) as [existing|] eqn:E.
    + rewrite (updateItem_found _ _ _ _ _ _ _ E). simpl. split; eauto.
    + rewrite (updateItem_not_found _ _ _ _ _ _ E). simpl.
      split; intros [x Hx]; discriminate.
  - intros E. split; [by apply updateItem_not_found|].
    intros req Hns Hcol Hid Hdata Hn Hc Hi Ht.
    assert (StorageRoutes.post_update db now req =
            (db, error_response 404 "NOT_FOUND" "Item not found")) as Hpost.
    { rewrite (post_update_valid _ _ _ _ _ _ _ Hns Hcol Hid Hdata Hn Hc Hi Ht).
      by rewrite (updateItem_not_found _ _ _ _ _ _ E). }
    split; [exact Hpost|].
    intros Hnext. unfold StorageRoutes.storage_update, StorageRoutes.guarded.
    by rewrite Hnext.
Qed.

Lemma updateItem_missing_detected_witness :
  let req := {| origin_header := None; referer_header := None;
                req_body := {| b_namespace := Some "x.com";
                               b_collection := Some "bookmarks";
                               b_id := Some "t1";
                               b_data := Some (JObj [("note", JStr "n")]);
                               b_capabilities := None;
                               b_origin := None |} |} in
  items Db.empty !! ("x.com", "bookmarks", "t1") = None
  /\ Storage.updateItem Db.empty 2000 "x.com" "bookmarks" "t1"
       (JObj [("note", JStr "n")]) = (Db.empty, None)
  /\ StorageRoutes.storage_update Db.empty 2000 req =
       (Db.empty, error_response 404 "NOT_FOUND" "Item not found").
Proof.
  cbv zeta.
  destruct (updateItem_missing_detected Db.empty 2000 "x.com" "bookmarks" "t1"
              (JObj [("note", JStr "n")])) as [_ H].
  destruct (H (lookup_empty _)) as [Hnull Hroute].
  split; [apply lookup_empty|]. split; [exact Hnull|].
  eapply Hroute; try reflexivity; discriminate.
Defined.

(** ** The permission system *)

Section PermissionFacts.

Import Permissions.

Lemma request_origin_no_headers req :
  origin_header req = None -> referer_header req = None ->
  request_origin req = "unknown".
Proof. intros Ho Hr. unfold request_origin. by rewrite Ho, Hr. Qed.

Lemma isLocalhost_spec origin :
  isLocalhost origin = false <->
  ~ contains origin "localhost" /\ ~ contains origin "127.0.0.1"
  /\ origin <> "unknown".
Proof.
  unfold isLocalhost, contains.
  rewrite !orb_false_iff, String.eqb_neq.
  rewrite <- !includes_substring, !not_true_iff_false. tauto.
Qed.

Lemma requirePermission_no_namespace db req :
  truthy_str (b_namespace (req_body req)) = false ->
  requirePermission db req = Next.
Proof.
  unfold requirePermission. destruct (b_namespace (req_body req)); [|done].
  by intros ->.
Qed.

Lemma requirePermission_namespace db req ns :
  b_namespace (req_body req) = Some ns -> ns <> "" ->
  requirePermission db req =
  if negb (granted (checkPermission db (request_origin req) ns))
     && negb (isLocalhost (request_origin req))
  then Respond (error_response 403 "Permission denied"
         ("Origin " ++ dquote ++ request_origin req ++ dquote ++
          " has not been granted access to namespace " ++
          dquote ++ ns ++ dquote ++
          ". Call /uhp/v1/permissions/request first."))
  else Next.
Proof.
  intros Hns Hne. unfold requirePermission. rewrite Hns. cbn [truthy_str].
  by apply String.eqb_neq in Hne as ->.
Qed.

Lemma granted_checkPermission db origin ns :
  granted (checkPermission db origin ns) = false <->
  permissions db !! (origin, ns) = None.
Proof.
  unfold checkPermission. destruct (permissions db !! (origin, ns)); simpl.
  - split; discriminate.
  - done.
Qed.

End PermissionFacts.

(** C8: for a request whose body names a namespace, the middleware
    answers 403 exactly when no grant row exists for the request's
    origin and that namespace and the origin neither contains
    "localhost" or "127.0.0.1" nor is "unknown", and hands the request
    on otherwise; a request with neither an Origin nor a Referer header
    is handed on whatever the grants are, and so is a request without a
    namespace in its body. *)
Theorem requirePermission_denies_exactly db req :
  (forall ns,
     b_namespace (req_body req) = Some ns -> ns <> "" ->
     let origin := Permissions.request_origin req in
     let ungranted_remote :=
       permissions db !! (origin, ns) = None
       /\ ~ contains origin "localhost" /\ ~ contains origin "127.0.0.1"
       /\ origin <> "unknown" in
     ((exists r, Permissions.requirePermission db req = Permissions.Respond r
                 /\ status r = 403) <-> ungranted_remote)
     /\ (~ ungranted_remote ->
         Permissions.requirePermission db req = Permissions.Next))
  /\ (origin_header req = None -> referer_header req = None ->
      Permissions.requirePermission db req = Permissions.Next)
  /\ (truthy_str (b_namespace (req_body req)) = false ->
      Permissions.requirePermission db req = Permissions.Next).
Proof.
  split; [|split].
  - intros ns Hns Hne. cbv zeta.
    rewrite (requirePermission_namespace _ _ _ Hns Hne).
    rewrite <- granted_checkPermission, <- isLocalhost_spec.
    destruct (Permissions.granted _), (Permissions.isLocalhost _); simpl.
    + split; [split; [intros (r & H & _); discriminate | intros [H _]; discriminate]|done].
    + split; [split; [intros (r & H & _); discriminate | intros [H _]; discriminate]|done].
    + split; [split; [intros (r & H & _); discriminate | intros [_ H]; discriminate]|done].
    + split; [split; [done | intros _; eexists; split; [reflexivity | reflexivity]]|].
      intros H. by destruct H.
  - intros Ho Hr.
    destruct (truthy_str (b_namespace (req_body req))) eqn:Ht.
    + destruct (b_namespace (req_body req)) as [ns|] eqn:Hns; [|discriminate].
      assert (ns <> "") as Hne.
      { intros ->. discriminate. }
      rewrite (requirePermission_namespace _ _ _ Hns Hne).
      rewrite (request_origin_no_headers _ Ho Hr).
      replace (Permissions.isLocalhost "unknown") with true by reflexivity.
      by rewrite andb_false_r.
    + by apply requirePermission_no_namespace.
  - apply requirePermission_no_namespace.
Qed.

Lemma requirePermission_denies_exactly_witness :
  let req := {| origin_header := Some "https://twitter.com";
                referer_header := None;
                req_body := {| b_namespace := Some "twitter.com";
                               b_collection := Some "bookmarks";
                               b_id := None;
                               b_data := Some (JObj [("text", JStr "a")]);
                               b_capabilities := None;
                               b_origin := None |} |} in
  exists r, Permissions.requirePermission Db.empty req = Permissions.Respond r
            /\ status r = 403.
Proof.
  cbv zeta.
  match goal with
  | |- exists r, Permissions.requirePermission ?db ?req = _ /\ _ =>
      destruct (requirePermission_denies_exactly db req) as [H _];
      destruct (H "twitter.com" eq_refl) as [[_ Hdeny] _]; [discriminate|];
      apply Hdeny
  end.
  split; [apply lookup_empty|].
  split; [|split]; try discriminate;
    unfold contains; rewrite <- includes_substring; vm_compute; discriminate.
Defined.

(** The middleware on three requests against an empty grant table: a
    local origin, an origin taken from the Referer header, and a
    remote origin once it has been granted the namespace. *)
Example requirePermission_localhost :
  Permissions.requirePermission Db.empty
    {| origin_header := Some "http://localhost:3000"; referer_header := None;
       req_body := {| b_namespace := Some "twitter.com"; b_collection := None;
                      b_id := None; b_data := None; b_capabilities := None;
                      b_origin := None |} |}
  = Permissions.Next.
Proof. vm_compute. reflexivity. Qed.

Example requirePermission_referer :
  exists r,
    Permissions.requirePermission Db.empty
      {| origin_header := None;
         referer_header := Some "https://twitter.com/home";
         req_body := {| b_namespace := Some "twitter.com"; b_collection := None;
                        b_id := None; b_data := None; b_capabilities := None;
                        b_origin := None |} |}
    = Permissions.Respond r /\ status r = 403.
Proof. vm_compute. eexists. split; reflexivity. Qed.

Example requirePermission_after_grant :
  let db := fst (Permissions.requestPermission Db.empty 1707850000000
                   "https://twitter.com" "twitter.com" None) in
  Permissions.requirePermission db
    {| origin_header := Some "https://twitter.com"; referer_header := None;
       req_body := {| b_namespace := Some "twitter.com"; b_collection := None;
                      b_id := None; b_data := None; b_capabilities := None;
                      b_origin := None |} |}
  = Permissions.Next.
Proof. vm_compute. reflexivity. Qed.

(** C9: a permission request is always granted.  Whatever the origin,
    the namespace and the capability list (an omitted list stands for
    storage.local, storage.query, storage.search), [requestPermission]
    returns [granted: true] with the requested capabilities, and the
    grant row of (origin, namespace) becomes exactly the requested
    capabilities stamped with the current time, replacing any earlier
    row; no other row changes, and the route answers 200 with the
    grant. *)
Theorem requestPermission_always_grants db now origin ns
    (capability_list : option (list json)) :
  let requested :=
    match capability_list with
    | Some xs => JArr xs
    | None => JArr [JStr "storage.local"; JStr "storage.query";
                    JStr "storage.search"]
    end in
  let '(db', result) :=
    Permissions.requestPermission db now origin ns
      (option_map JArr capability_list) in
  result = {| Permissions.g_granted := true; Permissions.g_namespace := ns;
              Permissions.g_origin := origin;
              Permissions.g_capabilities := requested |}
  /\ permissions db' !! (origin, ns) =
       Some {| Db.capabilities := requested; granted_at := now |}
  /\ (forall key, key <> (origin, ns) ->
        permissions db' !! key = permissions db !! key)
  /\ items db' = items db
  /\ Permissions.checkPermission db' origin ns =
       Permissions.Granted requested now
  /\ forall req,
       b_namespace (req_body req) = Some ns -> ns <> "" ->
       PermissionRoutes.route_origin req = origin ->
       b_capabilities (req_body req) = option_map JArr capability_list ->
       PermissionRoutes.post_request db now req =
         (db', ok_response
                 [("success", JBool true); ("granted", JBool true);
                  ("namespace", JStr ns); ("origin", JStr origin);
                  ("capabilities", requested)]).
Proof.
  cbv zeta.
  assert (Permissions.requestPermission db now origin ns
            (option_map JArr capability_list) =
          (with_permissions db
             (<[(origin, ns) :=
                  {| Db.capabilities :=
                       match capability_list with
                       | Some xs => JArr xs
                       | None => Permissions.default_capabilities
                       end;
                     granted_at := now |}]> (permissions db)),
           {| Permissions.g_granted := true; Permissions.g_namespace := ns;
              Permissions.g_origin := origin;
              Permissions.g_capabilities :=
                match capability_list with
                | Some xs => JArr xs
                | None => Permissions.default_capabilities
                end |})) as Heq.
  { unfold Permissions.requestPermission. by destruct capability_list. }
  rewrite Heq. unfold Permissions.default_capabilities.
  split; [done|].
  split; [cbn [permissions with_permissions]; by rewrite lookup_insert_eq|].
  split; [intros key Hkey; cbn [permissions with_permissions];
          by rewrite lookup_insert_ne|].
  split; [done|].
  split.
  { unfold Permissions.checkPermission. cbn [permissions with_permissions].
    by rewrite lookup_insert_eq. }
  intros req Hns Hne Horigin Hcaps.
  unfold PermissionRoutes.post_request.
  rewrite Hns, Horigin, Hcaps, Heq. cbn [truthy_str].
  apply String.eqb_neq in Hne as ->. cbn [negb].
  unfold Permissions.default_capabilities. f_equal.
Qed.

Lemma requestPermission_always_grants_witness :
  let '(db', result) :=
    Permissions.requestPermission Db.empty 1707850000000
      "https://twitter.com" "twitter.com" None in
  Permissions.g_granted result = true
  /\ Permissions.checkPermission db' "https://twitter.com" "twitter.com" =
       Permissions.Granted
         (JArr [JStr "storage.local"; JStr "storage.query";
                JStr "storage.search"]) 1707850000000.
Proof.
  pose proof (requestPermission_always_grants Db.empty 1707850000000
                "https://twitter.com" "twitter.com" None) as H.
  cbv zeta in H. cbn [option_map] in H.
  destruct (Permissions.requestPermission _ _ _ _ _) as [db' result].
  destruct H as (-> & _ & _ & _ & Hcheck & _). split; [reflexivity | exact Hcheck].
Defined.

(** ** The crypto envelope *)

Section EnvelopeFacts.

Import Envelope.

Lemma ct_equal_from_refl acc (a : bytes) : ct_equal_from acc a a = acc.
Proof.
  revert acc. induction a as [|x a IH]; intros acc; simpl; [done|].
  rewrite IH, (Byte.byte_dec_lb (x:=x) (y:=x) eq_refl). apply andb_true_r.
Qed.

Lemma ct_equal_from_false (a b : bytes) : ct_equal_from false a b = false.
Proof.
  revert b. induction a as [|x a IH]; intros [|y b]; simpl; auto.
Qed.

(** The constant-time comparison decides equality of the tags. *)
Lemma ct_equal_eq (a b : bytes) : ct_equal a b = true <-> a = b.
Proof.
  unfold ct_equal. split; [|intros ->; apply ct_equal_from_refl].
  revert b. induction a as [|x a IH]; intros [|y b]; simpl; try done.
  destruct (Byte.eqb x y) eqn:E.
  - apply Byte.byte_dec_bl in E. subst y. intros Hab. by rewrite (IH b Hab).
  - by rewrite ct_equal_from_false.
Qed.


End EnvelopeFacts.

(** C3: decrypting, with the same keys, the blob that [encrypt] makes
    of an entry returns that entry, for every entry that its canonical
    form parses back to, and every nonce under which authenticated
    decryption undoes authenticated encryption. *)
Theorem decrypt_encrypt_round_trip `{P : Envelope.Primitives}
    (entry : Envelope.ChangeEntry) (fresh_nonce encryption_key signing_key : Envelope.bytes) :
  Envelope.deserialize (Envelope.serialize entry) = Some entry ->
  (forall plaintext,
     Envelope.aead_decrypt encryption_key fresh_nonce
       (Envelope.aead_encrypt encryption_key fresh_nonce plaintext)
     = Some plaintext) ->
  Envelope.decrypt
    (Envelope.encrypt entry fresh_nonce encryption_key signing_key)
    encryption_key signing_key
  = inl entry.
Proof.
  intros Hser Haead. unfold Envelope.decrypt, Envelope.encrypt. simpl.
  rewrite (proj2 (ct_equal_eq _ _) eq_refl).
  by rewrite Haead, Hser.
Qed.

Lemma decrypt_encrypt_round_trip_witness :
  let P := Envelope.toy_primitives in
  let key := [Byte.x01; Byte.x02] in
  let n := [Byte.x0a; Byte.x0b; Byte.x0c] in
  Envelope.deserialize (Envelope.serialize Envelope.toy_entry)
    = Some Envelope.toy_entry
  /\ Envelope.decrypt (Envelope.encrypt Envelope.toy_entry n key key) key key
     = inl Envelope.toy_entry.
Proof.
  cbv zeta. split; [reflexivity|].
  apply (@decrypt_encrypt_round_trip Envelope.toy_primitives).
  - reflexivity.
  - intros plaintext. simpl. by rewrite rev_involutive.
Defined.

(** ** More of the storage engine: delete, statistics, replays *)

Section StorageMoreFacts.

Import Storage.

Implicit Types (db : database) (data : json).

Lemma with_items_same db : with_items db (items db) = db.
Proof. by destruct db. Qed.

Lemma deleteItem_not_found db ns col id :
  items db !! (ns, col, id) = None -> deleteItem db ns col id = (db, 0).
Proof.
  intros H. unfold deleteItem. by rewrite H, delete_id, with_items_same.
Qed.

(** A namespace is listed by [getStats] when some item carries it. *)
Lemma elem_of_namespaces db ns :
  ns ∈ namespaces (getStats db) <->
  exists col id, is_Some (items db !! (ns, col, id)).
Proof.
  unfold getStats. cbn [namespaces]. rewrite elem_of_list_to_set.
  rewrite list_elem_of_fmap. split.
  - intros ([[[ns' col] id] row] & Heq & Hin). simpl in Heq. subst ns'.
    apply elem_of_map_to_list in Hin. exists col, id. by rewrite Hin.
  - intros (col & id & [row Hrow]).
    exists (ns, col, id, row). split; [done|]. by apply elem_of_map_to_list.
Qed.

End StorageMoreFacts.

(** X1: [deleteItem] reports one deleted row exactly when the item was
    stored, the item is gone afterwards, no other item and no grant is
    touched, and deleting an item that is not stored leaves the
    database exactly as it was. *)
Theorem deleteItem_removes_only_that_item db ns col id :
  let '(db', deleted) := Storage.deleteItem db ns col id in
  (deleted = 1 <-> is_Some (items db !! (ns, col, id)))
  /\ (deleted = 0 <-> items db !! (ns, col, id) = None)
  /\ items db' !! (ns, col, id) = None
  /\ (forall key, key <> (ns, col, id) -> items db' !! key = items db !! key)
  /\ permissions db' = permissions db
  /\ (items db !! (ns, col, id) = None -> db' = db).
Proof.
  destruct (Storage.deleteItem db ns col id) as [db' deleted] eqn:E.
  unfold Storage.deleteItem in E. injection E as <- <-.
  cbn [items permissions with_items].
  split; [|split; [|split; [|split; [|split]]]].
  - destruct (items db !! (ns, col, id));
      [split; [by eauto | done] | split; [done | by intros [x Hx]]].
  - destruct (items db !! (ns, col, id)); split; done.
  - apply lookup_delete_eq.
  - intros key Hkey. by apply lookup_delete_ne.
  - done.
  - intros H. by rewrite delete_id, with_items_same.
Qed.

(** X2: once an item is deleted, [updateItem] on it answers [null] and
    changes nothing, and the [/update] route answers 404 to a valid
    body that the permission middleware lets through. *)
Theorem update_after_delete_not_found db now ns col id (data : json) req :
  b_namespace (req_body req) = Some ns ->
  b_collection (req_body req) = Some col ->
  b_id (req_body req) = Some id ->
  b_data (req_body req) = Some data ->
  ns <> "" -> col <> "" -> id <> "" -> truthy data = true ->
  let db' := fst (Storage.deleteItem db ns col id) in
  Storage.updateItem db' now ns col id data = (db', None)
  /\ (Permissions.requirePermission db' req = Permissions.Next ->
      StorageRoutes.storage_update db' now req =
        (db', error_response 404 "NOT_FOUND" "Item not found")).
Proof.
  intros Hns Hcol Hid Hdata Hn Hc Hi Ht db'.
  assert (items db' !! (ns, col, id) = None) as Hgone.
  { unfold db', Storage.deleteItem. cbn [fst items with_items].
    apply lookup_delete_eq. }
  split; [by apply updateItem_not_found|].
  intros Hnext. unfold StorageRoutes.storage_update, StorageRoutes.guarded.
  rewrite Hnext.
  rewrite (post_update_valid _ _ _ _ _ _ _ Hns Hcol Hid Hdata Hn Hc Hi Ht).
  by rewrite (updateItem_not_found _ _ _ _ _ _ Hgone).
Qed.

Lemma update_after_delete_not_found_witness :
  let row := {| Db.data := JObj [("text", JStr "a")];
                created_at := 1000; updated_at := 1000 |} in
  let db := with_items Db.empty {[ ("x.com", "bookmarks", "t1") := row ]} in
  let req := {| origin_header := Some "http://localhost:3000";
                referer_header := None;
                req_body := {| b_namespace := Some "x.com";
                               b_collection := Some "bookmarks";
                               b_id := Some "t1";
                               b_data := Some (JObj [("note", JStr "n")]);
                               b_capabilities := None;
                               b_origin := None |} |} in
  let db' := fst (Storage.deleteItem db "x.com" "bookmarks" "t1") in
  items db !! ("x.com", "bookmarks", "t1") = Some row
  /\ Storage.updateItem db' 2000 "x.com" "bookmarks" "t1"
       (JObj [("note", JStr "n")]) = (db', None)
  /\ StorageRoutes.storage_update db' 2000 req =
       (db', error_response 404 "NOT_FOUND" "Item not found").
Proof.
  cbv zeta. split; [apply lookup_singleton_eq|].
  match goal with
  | |- Storage.updateItem (fst (Storage.deleteItem ?db _ _ _)) _ _ _ _ _ = _ /\
       StorageRoutes.storage_update _ _ ?req = _ =>
      destruct (update_after_delete_not_found db 2000 "x.com" "bookmarks" "t1"
                  (JObj [("note", JStr "n")]) req) as [H1 H2];
        try reflexivity; try discriminate
  end.
  split; [exact H1|]. apply H2. reflexivity.
Defined.

(** X3: writing an item under a fresh non-empty id and deleting it
    again gives back the database as it was, and the delete reports
    one row. *)
Theorem write_then_delete_restores db t_id rnd now ns col id (data : json) :
  id <> "" ->
  items db !! (ns, col, id) = None ->
  let db1 := fst (Storage.writeItem db t_id rnd now ns col (Some id) data) in
  Storage.deleteItem db1 ns col id = (db, 1).
Proof.
  intros Hid Hfresh db1. unfold db1. rewrite writeItem_id by done.
  unfold Storage.deleteItem. cbn [fst items with_items permissions].
  rewrite upsert_lookup_eq. f_equal.
  unfold Storage.upsert. rewrite Hfresh, delete_insert_eq, delete_id by done.
  by destruct db.
Qed.

Lemma write_then_delete_restores_witness :
  "t1" <> ""
  /\ items Db.empty !! ("x.com", "bookmarks", "t1") = None
  /\ Storage.deleteItem
       (fst (Storage.writeItem Db.empty 0 "" 1000 "x.com" "bookmarks"
               (Some "t1") (JObj [("text", JStr "a")])))
       "x.com" "bookmarks" "t1" = (Db.empty, 1).
Proof.
  split; [discriminate|]. split; [apply lookup_empty|].
  apply (write_then_delete_restores Db.empty 0 "" 1000 "x.com" "bookmarks" "t1").
  - discriminate.
  - apply lookup_empty.
Defined.

(** ** Objects built by spreads keep their keys in order *)

Section KeyOrderFacts.

Import KeyOrder.

Implicit Types (k : string) (v : json) (props : list (string * json)).

Lemma array_index_pretty k n : array_index k = Some n -> k = pretty n.
Proof.
  unfold array_index. destruct k as [|c k]; [done|].
  destruct (parse_digits _ _) as [m|]; [|done].
  destruct (String.eqb (pretty m) (String c k)) eqn:E; [|done].
  destruct (m <? _)%N; [|done]. intros [= <-].
  by apply String.eqb_eq in E.
Qed.

Lemma array_index_inj k1 k2 n :
  array_index k1 = Some n -> array_index k2 = Some n -> k1 = k2.
Proof.
  intros H1%array_index_pretty H2%array_index_pretty. congruence.
Qed.

Lemma elem_of_insert_index n k v props x :
  x ∈ (insert_index n k v props).*1 <-> x = k \/ x ∈ props.*1.
Proof. by rewrite insert_index_perm, fmap_cons, elem_of_cons. Qed.

Lemma insert_index_sorted n k v props :
  array_index k = Some n -> k ∉ props.*1 ->
  StronglySorted key_before props.*1 ->
  StronglySorted key_before (insert_index n k v props).*1.
Proof.
  intros Hk. induction props as [|[k' w] rest IH]; intros Hnotin Hs.
  - simpl. repeat constructor.
  - rewrite fmap_cons in Hnotin, Hs. simpl in Hnotin, Hs.
    apply not_elem_of_cons in Hnotin as [Hne Hnotin].
    apply StronglySorted_inv in Hs as [Hrest Hall].
    rewrite Forall_forall in Hall.
    cbn [insert_index].
    destruct (array_index k') as [m|] eqn:Hk'.
    + destruct (n <? m)%N eqn:Hlt.
      * apply N.ltb_lt in Hlt. rewrite !fmap_cons. simpl.
        constructor; [constructor; [done | by apply Forall_forall]|].
        constructor.
        { unfold key_before. by rewrite Hk, Hk'. }
        apply Forall_forall. intros x Hx. specialize (Hall x Hx).
        unfold key_before in *. rewrite Hk. rewrite Hk' in Hall.
        destruct (array_index x); [lia | done].
      * apply N.ltb_ge in Hlt.
        assert (n <> m) as Hnm.
        { intros ->. apply Hne. by eapply array_index_inj. }
        rewrite fmap_cons. simpl. constructor; [by apply IH|].
        apply Forall_forall. intros x [-> | Hx]%elem_of_insert_index.
        -- unfold key_before. rewrite Hk, Hk'. lia.
        -- by apply Hall.
    + rewrite !fmap_cons. simpl.
      constructor; [constructor; [done | by apply Forall_forall]|].
      constructor.
      { unfold key_before. by rewrite Hk, Hk'. }
      apply Forall_forall. intros x Hx. specialize (Hall x Hx).
      unfold key_before in *. rewrite Hk. rewrite Hk' in Hall.
      by destruct (array_index x).
Qed.

(** Defining a property keeps an object's keys different and in order. *)
Lemma define_prop_ordered k v props :
  ordered props -> ordered (define_prop props (k, v)).
Proof.
  intros [Hnd Hs]. split; [by apply define_prop_NoDup|].
  unfold define_prop. destruct (has_prop k props) eqn:H.
  - by rewrite overwrite_keys.
  - assert (k ∉ props.*1) as Hk.
    { rewrite <- has_prop_elem_of. by rewrite H. }
    destruct (array_index k) as [n|] eqn:Hidx.
    + by apply insert_index_sorted.
    + rewrite fmap_app. simpl. apply StronglySorted_app.
      split; [|split; [done | repeat constructor]].
      intros x1 x2 _ ->%list_elem_of_singleton.
      unfold key_before. rewrite Hidx. by destruct (array_index x1).
Qed.

Lemma fold_define_ordered (ps : list (string * json)) props :
  ordered props -> ordered (fold_left define_prop ps props).
Proof.
  revert props.
  induction ps as [|[k v] ps IH]; intros props Ho; cbn [fold_left]; [done|].
  by apply IH, define_prop_ordered.
Qed.

Lemma spread2_ordered (a b : json) : ordered (spread2 a b).
Proof.
  unfold spread2, spread. apply fold_define_ordered, fold_define_ordered.
  split; simpl; constructor.
Qed.

Lemma insert_index_last n k v props :
  (forall x, x ∈ props.*1 -> exists a, array_index x = Some a /\ (a < n)%N) ->
  insert_index n k v props = (props ++ [(k, v)])%list.
Proof.
  induction props as [|[k' w] rest IH]; intros Hall; [done|].
  cbn [insert_index].
  destruct (Hall k') as (a & -> & Ha); [rewrite fmap_cons; left|].
  assert ((n <? a)%N = false) as ->.
  { apply N.ltb_ge. lia. }
  rewrite IH; [done|]. intros x Hx. apply Hall. rewrite fmap_cons. by right.
Qed.

(** Copying an object whose keys are in order, property by property,
    gives the same object. *)
Lemma fold_define_rebuild props :
  ordered props -> fold_left define_prop props [] = props.
Proof.
  induction props as [|[k v] props IH] using rev_ind; [done|].
  intros [Hnd Hs]. rewrite fmap_app in Hnd, Hs. simpl in Hnd, Hs.
  apply NoDup_app in Hnd as (Hnd & Hfresh & _).
  apply StronglySorted_app in Hs as (Hbefore & Hs & _).
  rewrite fold_left_app. cbn [fold_left]. rewrite IH by done.
  assert (k ∉ props.*1) as Hk.
  { intros Hin. apply (Hfresh k Hin). by left. }
  unfold define_prop.
  assert (has_prop k props = false) as ->.
  { apply not_true_is_false. by rewrite has_prop_elem_of. }
  destruct (array_index k) as [n|] eqn:Hidx; [|done].
  apply insert_index_last. intros x Hx.
  specialize (Hbefore x k Hx ltac:(by left)).
  unfold key_before in Hbefore. rewrite Hidx in Hbefore.
  destruct (array_index x) as [a|]; [eauto | done].
Qed.

Lemma overwrite_fmap k v props :
  overwrite k v props =
  (fun kw => (kw.1, if String.eqb k kw.1 then v else kw.2)) <$> props.
Proof.
  induction props as [|[k' w] rest IH]; [done|].
  cbn [overwrite]. rewrite fmap_cons, IH. simpl.
  by destruct (String.eqb k k').
Qed.

(** Defining properties that an object already has only replaces
    their values. *)
Lemma fold_define_present (ps : list (string * json)) props :
  (forall k, k ∈ ps.*1 -> has_prop k props = true) ->
  fold_left define_prop ps props =
  (fun kw => (kw.1, default kw.2 (get_prop kw.1 ps))) <$> props.
Proof.
  revert props. induction ps as [|[k v] ps IH]; intros props Hall.
  - cbn [fold_left get_prop]. rewrite <- (list_fmap_id props) at 1.
    apply list_fmap_ext. by intros i [k w] _.
  - cbn [fold_left]. unfold define_prop at 2.
    rewrite (Hall k) by (rewrite fmap_cons; by left).
    rewrite IH.
    + rewrite overwrite_fmap, <- list_fmap_compose.
      apply list_fmap_ext. intros i [k' w] _. simpl.
      destruct (get_prop k' ps); [done|].
      rewrite (String.eqb_sym k k'). by destruct (String.eqb k' k).
    + intros k' Hk'. rewrite has_prop_elem_of, overwrite_keys.
      apply has_prop_elem_of, Hall. rewrite fmap_cons. by right.
Qed.

Lemma get_prop_elem_of k v props :
  NoDup props.*1 -> (k, v) ∈ props -> get_prop k props = Some v.
Proof.
  induction props as [|[k' w] rest IH]; intros Hnd Hin.
  - by apply elem_of_nil in Hin.
  - rewrite fmap_cons in Hnd. simpl in Hnd.
    apply NoDup_cons in Hnd as [Hk' Hnd].
    apply elem_of_cons in Hin as [[= <- <-] | Hin]; simpl.
    + rewrite has_prop_false_get, String.eqb_refl; [done|].
      apply not_true_is_false. by rewrite has_prop_elem_of.
    + by rewrite (IH Hnd Hin).
Qed.

Lemma get_prop_is_Some k props :
  is_Some (get_prop k props) <-> k ∈ props.*1.
Proof.
  rewrite <- has_prop_elem_of. split.
  - intros [v Hv]. destruct (has_prop k props) eqn:H; [done|].
    rewrite has_prop_false_get in Hv; done.
  - induction props as [|[k' w] rest IH]; simpl; [done|].
    intros [Hk | Hrest]%orb_true_iff.
    + rewrite Hk. destruct (get_prop k rest); eauto.
    + destruct (IH Hrest) as [x ->]. eauto.
Qed.

(** Spreading a patch over the result of spreading it changes nothing. *)
Lemma spread2_replay (a b : json) :
  spread2 (JObj (spread2 a b)) b = spread2 a b.
Proof.
  pose proof (spread2_ordered a b) as Hord.
  pose proof (spread2_NoDup a b) as Hnd.
  unfold spread2 at 1. unfold spread at 1 2. cbn [own_props].
  rewrite fold_define_rebuild by done.
  rewrite fold_define_present.
  - rewrite <- (list_fmap_id (spread2 a b)) at 2.
    apply list_fmap_ext. intros i [k w] Hi. simpl.
    apply list_elem_of_lookup_2 in Hi.
    pose proof (get_prop_elem_of _ _ _ Hnd Hi) as Hget.
    rewrite get_prop_spread2 in Hget.
    destruct (get_prop k (own_props b)); [by injection Hget as -> | done].
  - intros k Hk. apply has_prop_elem_of, get_prop_is_Some.
    apply get_prop_is_Some in Hk as [v Hv].
    rewrite get_prop_spread2, Hv. eauto.
Qed.

End KeyOrderFacts.

(** X4: replaying a partial update changes no data.  On an existing
    item, a second [updateItem] with the same patch stores the same
    object as the first and keeps [created_at]; only [updated_at]
    moves to the clock reading of the second call, so the database is
    the same when the two readings coincide. *)
Theorem updateItem_replay db now1 now2 ns col id (D : json) existing :
  items db !! (ns, col, id) = Some existing ->
  let db1 := fst (Storage.updateItem db now1 ns col id D) in
  let db2 := fst (Storage.updateItem db1 now2 ns col id D) in
  exists row1,
    items db1 !! (ns, col, id) = Some row1
    /\ items db2 !! (ns, col, id) =
         Some {| Db.data := Db.data row1; created_at := created_at existing;
                 updated_at := now2 |}
    /\ (forall key, key <> (ns, col, id) -> items db2 !! key = items db !! key)
    /\ (now2 = now1 -> db2 = db1).
Proof.
  intros Hex db1 db2.
  assert (items db1 !! (ns, col, id) =
          Some {| Db.data := JObj (spread2 (Db.data existing) D);
                  created_at := created_at existing; updated_at := now1 |})
    as H1.
  { unfold db1. rewrite (updateItem_found _ _ _ _ _ _ _ Hex).
    cbn [fst items with_items]. apply lookup_insert_eq. }
  assert (db2 =
          with_items db1
            (<[(ns, col, id) :=
                 {| Db.data := JObj (spread2 (Db.data existing) D);
                    created_at := created_at existing;
                    updated_at := now2 |}]> (items db1))) as H2.
  { unfold db2. rewrite (updateItem_found _ _ _ _ _ _ _ H1).
    cbn [fst Db.data created_at]. by rewrite spread2_replay. }
  eexists. split; [exact H1|]. cbn [Db.data].
  split; [rewrite H2; cbn [items with_items]; apply lookup_insert_eq|].
  split.
  - intros key Hkey. rewrite H2. cbn [items with_items].
    rewrite lookup_insert_ne by done.
    unfold db1. rewrite (updateItem_found _ _ _ _ _ _ _ Hex).
    cbn [fst items with_items]. by rewrite lookup_insert_ne.
  - intros ->. rewrite H2. apply database_eq; [|done].
    cbn [items with_items]. by apply insert_id.
Qed.

Lemma updateItem_replay_witness :
  let E := JObj [("text", JStr "a"); ("7", JNum 1)] in
  let D := JObj [("note", JStr "n"); ("3", JNum 2); ("text", JStr "b")] in
  let row := {| Db.data := E; created_at := 1000; updated_at := 1000 |} in
  let db := with_items Db.empty {[ ("x.com", "bookmarks", "t1") := row ]} in
  let db1 := fst (Storage.updateItem db 2000 "x.com" "bookmarks" "t1" D) in
  let db2 := fst (Storage.updateItem db1 3000 "x.com" "bookmarks" "t1" D) in
  items db !! ("x.com", "bookmarks", "t1") = Some row
  /\ exists row1,
       items db1 !! ("x.com", "bookmarks", "t1") = Some row1
       /\ items db2 !! ("x.com", "bookmarks", "t1") =
            Some {| Db.data := Db.data row1; created_at := 1000;
                    updated_at := 3000 |}.
Proof.
  cbv zeta. split; [apply lookup_singleton_eq|].
  destruct (updateItem_replay
              (with_items Db.empty
                 {[ ("x.com", "bookmarks", "t1") :=
                      {| Db.data := JObj [("text", JStr "a"); ("7", JNum 1)];
                         created_at := 1000; updated_at := 1000 |} ]})
              2000 3000 "x.com" "bookmarks" "t1"
              (JObj [("note", JStr "n"); ("3", JNum 2); ("text", JStr "b")])
              _ (lookup_singleton_eq _ _))
    as (row1 & H1 & H2 & _).
  exists row1. split; [exact H1 | exact H2].
Defined.

(** X5: an existing item keeps its stored [created_at] under
    [writeItem] and under [updateItem], while the result of
    [writeItem] reports the current clock reading as [created_at]. *)
Theorem created_at_is_kept db t_id rnd now ns col id (data D : json) existing :
  id <> "" ->
  items db !! (ns, col, id) = Some existing ->
  let '(dbw, rw) := Storage.writeItem db t_id rnd now ns col (Some id) data in
  let '(dbu, ru) := Storage.updateItem db now ns col id D in
  created_at <$> items dbw !! (ns, col, id) = Some (created_at existing)
  /\ updated_at <$> items dbw !! (ns, col, id) = Some now
  /\ Storage.wr_created_at rw = now
  /\ created_at <$> items dbu !! (ns, col, id) = Some (created_at existing).
Proof.
  intros Hid Hex. rewrite writeItem_id by done.
  rewrite (updateItem_found _ _ _ _ _ _ _ Hex).
  cbn [items with_items Storage.wr_created_at].
  rewrite upsert_lookup_eq, Hex, lookup_insert_eq. done.
Qed.

Lemma created_at_is_kept_witness :
  let row := {| Db.data := JObj [("text", JStr "a")];
                created_at := 1000; updated_at := 1500 |} in
  let db := with_items Db.empty {[ ("x.com", "bookmarks", "t1") := row ]} in
  "t1" <> ""
  /\ items db !! ("x.com", "bookmarks", "t1") = Some row
  /\ let '(dbw, rw) :=
       Storage.writeItem db 0 "" 2000 "x.com" "bookmarks" (Some "t1")
         (JObj [("text", JStr "b")]) in
     let '(dbu, ru) :=
       Storage.updateItem db 2000 "x.com" "bookmarks" "t1"
         (JObj [("note", JStr "n")]) in
     created_at <$> items dbw !! ("x.com", "bookmarks", "t1") = Some 1000
     /\ updated_at <$> items dbw !! ("x.com", "bookmarks", "t1") = Some 2000
     /\ Storage.wr_created_at rw = 2000
     /\ created_at <$> items dbu !! ("x.com", "bookmarks", "t1") = Some 1000.
Proof.
  cbv zeta. split; [discriminate|]. split; [apply lookup_singleton_eq|].
  apply (created_at_is_kept _ 0 "" 2000 "x.com" "bookmarks" "t1"
           (JObj [("text", JStr "b")]) (JObj [("note", JStr "n")])
           {| Db.data := JObj [("text", JStr "a")];
              created_at := 1000; updated_at := 1500 |}).
  - discriminate.
  - apply lookup_singleton_eq.
Defined.

(** X6: what [getStats] reports after a write or an update.  A write
    adds one to [totalItems] when the id it stores under is new and
    nothing when it is not, and the namespace written to is listed;
    an update never changes [totalItems] or the listed namespaces. *)
Theorem getStats_after_write_and_update db t_id rnd now ns col id (data : json)
    uid (D : json) :
  let '(dbw, rw) := Storage.writeItem db t_id rnd now ns col id data in
  let dbu := fst (Storage.updateItem db now ns col uid D) in
  Storage.totalItems (Storage.getStats dbw) =
    (if decide (is_Some (items db !! (ns, col, Storage.wr_id rw)))
     then Storage.totalItems (Storage.getStats db)
     else S (Storage.totalItems (Storage.getStats db)))
  /\ ns ∈ Storage.namespaces (Storage.getStats dbw)
  /\ Storage.totalItems (Storage.getStats dbu) =
       Storage.totalItems (Storage.getStats db)
  /\ Storage.namespaces (Storage.getStats dbu) =
       Storage.namespaces (Storage.getStats db).
Proof.
  destruct (Storage.writeItem db t_id rnd now ns col id data) as [dbw rw] eqn:E.
  unfold Storage.writeItem in E. injection E as <- <-.
  cbn [Storage.wr_id]. set (itemId := match id with Some _ => _ | None => _ end).
  split; [|split; [|split]].
  - unfold Storage.getStats. cbn [Storage.totalItems items with_items].
    unfold Storage.upsert.
    destruct (items db !! (ns, col, itemId)) as [old|] eqn:Hold.
    + rewrite decide_True by eauto. by rewrite map_size_insert_Some.
    + rewrite decide_False by (by intros [x Hx]).
      by rewrite map_size_insert_None.
  - apply elem_of_namespaces. exists col, itemId. cbn [items with_items].
    rewrite upsert_lookup_eq. eauto.
  - unfold Storage.updateItem.
    destruct (items db !! (ns, col, uid)) as [existing|] eqn:Hex; [|done].
    unfold Storage.getStats. cbn [fst Storage.totalItems items with_items].
    by rewrite map_size_insert_Some.
  - unfold Storage.updateItem.
    destruct (items db !! (ns, col, uid)) as [existing|] eqn:Hex; [|done].
    cbn [fst]. apply set_eq. intros ns'. rewrite !elem_of_namespaces.
    cbn [items with_items].
    split; intros (col' & id' & Hsome); exists col', id'.
    + destruct (decide ((ns, col, uid) = (ns', col', id'))) as [<-|Hne].
      * by rewrite Hex.
      * by rewrite lookup_insert_ne in Hsome.
    + destruct (decide ((ns, col, uid) = (ns', col', id'))) as [<-|Hne].
      * rewrite lookup_insert_eq. eauto.
      * by rewrite lookup_insert_ne.
Qed.

(** X7: what [getStats] reports after a delete: [totalItems] drops by
    the number of rows [deleteItem] reports, and a namespace stays
    listed exactly when another item still carries it. *)
Theorem getStats_after_delete db ns col id :
  let '(db', deleted) := Storage.deleteItem db ns col id in
  (Z.of_nat (Storage.totalItems (Storage.getStats db')) + deleted =
     Z.of_nat (Storage.totalItems (Storage.getStats db)))%Z
  /\ forall ns',
       ns' ∈ Storage.namespaces (Storage.getStats db') <->
       exists col' id', (ns', col', id') <> (ns, col, id)
                        /\ is_Some (items db !! (ns', col', id')).
Proof.
  destruct (Storage.deleteItem db ns col id) as [db' deleted] eqn:E.
  unfold Storage.deleteItem in E. injection E as <- <-.
  split.
  - unfold Storage.getStats. cbn [Storage.totalItems items with_items].
    destruct (items db !! (ns, col, id)) as [row|] eqn:Hrow.
    + rewrite map_size_delete_Some by eauto.
      assert (size (items db) <> 0%nat) as Hpos.
      { intros H0. apply map_size_empty_iff in H0.
        rewrite H0, lookup_empty in Hrow. discriminate. }
      lia.
    + rewrite map_size_delete_None by done. lia.
  - intros ns'. rewrite elem_of_namespaces. cbn [items with_items].
    split.
    + intros (col' & id' & Hsome). exists col', id'.
      destruct (decide ((ns', col', id') = (ns, col, id))) as [Heq|Hne].
      * rewrite Heq, lookup_delete_eq in Hsome. by destruct Hsome.
      * by rewrite lookup_delete_ne in Hsome.
    + intros (col' & id' & Hne & Hsome). exists col', id'.
      by rewrite lookup_delete_ne.
Qed.

(** ** More of the permission system: revoking, listing, scoping *)

Section PermissionMoreFacts.

Import Permissions PermissionRoutes.

Lemma with_permissions_same db : with_permissions db (permissions db) = db.
Proof. by destruct db. Qed.

Lemma requirePermission_cases db req :
  requirePermission db req =
  match b_namespace (req_body req) with
  | Some ns =>
      if truthy_str (Some ns)
         && negb (granted (checkPermission db (request_origin req) ns))
         && negb (isLocalhost (request_origin req))
      then Respond (error_response 403 "Permission denied"
             ("Origin " ++ dquote ++ request_origin req ++ dquote ++
              " has not been granted access to namespace " ++
              dquote ++ ns ++ dquote ++
              ". Call /uhp/v1/permissions/request first."))
      else Next
  | None => Next
  end.
Proof.
  unfold requirePermission. destruct (b_namespace (req_body req)) as [ns|]; [|done].
  by destruct (truthy_str (Some ns)).
Qed.

(** With an Origin or a Referer header, the permission routes and the
    storage middleware see the same origin. *)
Lemma route_origin_headers req :
  truthy_str (or_str (origin_header req) (referer_header req)) = true ->
  route_origin req = request_origin req.
Proof.
  intros H. unfold route_origin, request_origin.
  remember (or_str (origin_header req) (referer_header req)) as h.
  unfold or_str. rewrite H. by rewrite H.
Qed.

Lemma request_origin_unknown req :
  truthy_str (or_str (origin_header req) (referer_header req)) = false ->
  request_origin req = "unknown".
Proof.
  intros H. unfold request_origin.
  remember (or_str (origin_header req) (referer_header req)) as h.
  unfold or_str. by rewrite H.
Qed.

End PermissionMoreFacts.

(** X8: [revokePermission] reports [revoked: true] exactly when a grant
    row existed; afterwards [checkPermission] finds no grant for that
    origin and namespace, every other grant and every item is as
    before, and revoking a grant that does not exist changes
    nothing. *)
Theorem revokePermission_removes_only_that_grant db origin ns :
  let '(db', revoked) := Permissions.revokePermission db origin ns in
  (revoked = true <-> is_Some (permissions db !! (origin, ns)))
  /\ Permissions.checkPermission db' origin ns = Permissions.NotGranted
  /\ (forall o n, (o, n) <> (origin, ns) ->
        Permissions.checkPermission db' o n = Permissions.checkPermission db o n)
  /\ items db' = items db
  /\ (permissions db !! (origin, ns) = None -> db' = db)
  /\ Permissions.revokePermission db' origin ns = (db', false).
Proof.
  destruct (Permissions.revokePermission db origin ns) as [db' revoked] eqn:E.
  unfold Permissions.revokePermission in E. injection E as <- <-.
  split; [|split; [|split; [|split; [|split]]]].
  - destruct (permissions db !! (origin, ns));
      [split; [by eauto | done] | split; [done | by intros [x Hx]]].
  - unfold Permissions.checkPermission. cbn [permissions with_permissions].
    by rewrite lookup_delete_eq.
  - intros o n Hne. unfold Permissions.checkPermission.
    cbn [permissions with_permissions]. by rewrite lookup_delete_ne.
  - done.
  - intros H. by rewrite delete_id, with_permissions_same.
  - unfold Permissions.revokePermission. cbn [permissions with_permissions].
    rewrite lookup_delete_eq. f_equal.
    rewrite (delete_id (delete _ _)) by apply lookup_delete_eq. by destruct db.
Qed.

(** X9: through the routes, a permission request followed by a revoke
    that carries the same headers and body leaves the database as it
    was, when the origin had no grant for the namespace before; the
    request answers [granted: true] and the revoke [revoked: true]. *)
Theorem request_then_revoke_restores db now req ns :
  b_namespace (req_body req) = Some ns -> ns <> "" ->
  permissions db !! (PermissionRoutes.route_origin req, ns) = None ->
  let '(db1, r1) := PermissionRoutes.post_request db now req in
  let '(db2, r2) := PermissionRoutes.post_revoke db1 req in
  db2 = db
  /\ status r1 = 200 /\ get_prop "granted" (own_props (payload r1)) = Some (JBool true)
  /\ r2 = ok_response [("success", JBool true); ("revoked", JBool true)].
Proof.
  intros Hns Hne Hnone.
  unfold PermissionRoutes.post_request, PermissionRoutes.post_revoke.
  rewrite Hns. cbn [truthy_str].
  apply String.eqb_neq in Hne as ->. cbn [negb].
  unfold Permissions.requestPermission, Permissions.revokePermission.
  cbn [permissions with_permissions].
  rewrite lookup_insert_eq, delete_insert_eq, delete_id by done.
  split; [by destruct db|]. split; [done|]. split; [|done].
  reflexivity.
Qed.

Lemma request_then_revoke_restores_witness :
  let req := {| origin_header := Some "https://twitter.com";
                referer_header := None;
                req_body := {| b_namespace := Some "twitter.com";
                               b_collection := None; b_id := None;
                               b_data := None; b_capabilities := None;
                               b_origin := None |} |} in
  permissions Db.empty !! (PermissionRoutes.route_origin req, "twitter.com") = None
  /\ let '(db1, r1) := PermissionRoutes.post_request Db.empty 1000 req in
     let '(db2, r2) := PermissionRoutes.post_revoke db1 req in
     db2 = Db.empty
     /\ status r1 = 200
     /\ get_prop "granted" (own_props (payload r1)) = Some (JBool true)
     /\ r2 = ok_response [("success", JBool true); ("revoked", JBool true)].
Proof.
  cbv zeta. split; [apply lookup_empty|].
  apply (request_then_revoke_restores Db.empty 1000 _ "twitter.com").
  - reflexivity.
  - discriminate.
  - apply lookup_empty.
Defined.

(** X10: a grant is scoped to its origin and namespace.  After
    [requestPermission] for one origin and namespace, the storage
    middleware decides as before on every request of another origin or
    for another namespace, and a request that passed before still
    passes. *)
Theorem requestPermission_is_scoped db now origin ns caps req :
  let db' := fst (Permissions.requestPermission db now origin ns caps) in
  ((Permissions.request_origin req <> origin
    \/ b_namespace (req_body req) <> Some ns) ->
   Permissions.requirePermission db' req = Permissions.requirePermission db req)
  /\ (Permissions.requirePermission db req = Permissions.Next ->
      Permissions.requirePermission db' req = Permissions.Next).
Proof.
  intros db'.
  assert (forall o n,
            (o, n) <> (origin, ns) ->
            Permissions.checkPermission db' o n =
            Permissions.checkPermission db o n) as Hother.
  { intros o n Hne. unfold db', Permissions.checkPermission,
      Permissions.requestPermission.
    cbn [fst permissions with_permissions]. by rewrite lookup_insert_ne. }
  assert (Permissions.granted (Permissions.checkPermission db' origin ns) = true)
    as Hsame.
  { unfold db', Permissions.checkPermission, Permissions.requestPermission.
    cbn [fst permissions with_permissions]. by rewrite lookup_insert_eq. }
  rewrite !requirePermission_cases.
  destruct (b_namespace (req_body req)) as [n|] eqn:Hn; [|done].
  split.
  - intros Hdiff. rewrite Hother; [done|].
    intros [= Ho Hn']. destruct Hdiff as [H|H]; [done|]. by subst.
  - destruct (decide ((Permissions.request_origin req, n) = (origin, ns)))
      as [[= -> ->]|Hne].
    + intros _. rewrite Hsame. by rewrite andb_false_r.
    + by rewrite Hother.
Qed.

Lemma requestPermission_is_scoped_witness :
  let req := {| origin_header := Some "https://evil.example";
                referer_header := None;
                req_body := {| b_namespace := Some "twitter.com";
                               b_collection := None; b_id := None;
                               b_data := None; b_capabilities := None;
                               b_origin := None |} |} in
  let db' := fst (Permissions.requestPermission Db.empty 1000
                    "https://twitter.com" "twitter.com" None) in
  Permissions.request_origin req <> "https://twitter.com"
  /\ Permissions.requirePermission db' req =
       Permissions.requirePermission Db.empty req.
Proof.
  cbv zeta. split; [discriminate|].
  apply (requestPermission_is_scoped Db.empty 1000 "https://twitter.com"
           "twitter.com" None).
  left. discriminate.
Defined.

(** X11: a permission request opens the namespace to its sender.
    After [POST /permissions/request] for a namespace, the storage
    middleware lets through every request for that namespace that
    carries the same Origin and Referer headers. *)
Theorem request_then_storage_admitted db now req ns req' :
  b_namespace (req_body req) = Some ns -> ns <> "" ->
  origin_header req' = origin_header req ->
  referer_header req' = referer_header req ->
  b_namespace (req_body req') = Some ns ->
  let db' := fst (PermissionRoutes.post_request db now req) in
  Permissions.requirePermission db' req' = Permissions.Next.
Proof.
  intros Hns Hne Ho Hr Hns' db'.
  rewrite requirePermission_cases, Hns'.
  destruct (truthy_str (or_str (origin_header req) (referer_header req))) eqn:Hh.
  - assert (Permissions.request_origin req' = PermissionRoutes.route_origin req)
      as ->.
    { rewrite (route_origin_headers _ Hh).
      unfold Permissions.request_origin. by rewrite Ho, Hr. }
    unfold db', PermissionRoutes.post_request. rewrite Hns. cbn [truthy_str].
    apply String.eqb_neq in Hne as ->. cbn [negb].
    unfold Permissions.requestPermission, Permissions.checkPermission.
    cbn [fst permissions with_permissions]. rewrite lookup_insert_eq.
    cbn [Permissions.granted negb]. by rewrite andb_false_r.
  - assert (Permissions.request_origin req' = "unknown") as ->.
    { apply request_origin_unknown. by rewrite Ho, Hr. }
    replace (Permissions.isLocalhost "unknown") with true by reflexivity.
    by rewrite andb_false_r.
Qed.

Lemma request_then_storage_admitted_witness :
  let req := {| origin_header := Some "https://twitter.com";
                referer_header := None;
                req_body := {| b_namespace := Some "twitter.com";
                               b_collection := None; b_id := None;
                               b_data := None; b_capabilities := None;
                               b_origin := None |} |} in
  let req' := {| origin_header := Some "https://twitter.com";
                 referer_header := None;
                 req_body := {| b_namespace := Some "twitter.com";
                                b_collection := Some "bookmarks";
                                b_id := Some "t1";
                                b_data := Some (JObj [("text", JStr "a")]);
                                b_capabilities := None;
                                b_origin := None |} |} in
  Permissions.requirePermission Db.empty req' <> Permissions.Next
  /\ Permissions.requirePermission
       (fst (PermissionRoutes.post_request Db.empty 1000 req)) req'
     = Permissions.Next.
Proof.
  cbv zeta. split; [vm_compute; discriminate|].
  apply (request_then_storage_admitted Db.empty 1000 _ "twitter.com");
    try reflexivity.
  discriminate.
Defined.

(** X12: a revoke closes the namespace again.  After
    [POST /permissions/revoke] sent with an Origin or Referer header
    that is not a local one, a storage request for that namespace with
    the same headers is answered 403 by the middleware, before any
    handler runs and with the database untouched. *)
Theorem revoke_then_storage_denied db req ns req' :
  b_namespace (req_body req) = Some ns -> ns <> "" ->
  truthy_str (or_str (origin_header req) (referer_header req)) = true ->
  Permissions.isLocalhost (Permissions.request_origin req) = false ->
  origin_header req' = origin_header req ->
  referer_header req' = referer_header req ->
  b_namespace (req_body req') = Some ns ->
  let db' := fst (PermissionRoutes.post_revoke db req) in
  exists r,
    Permissions.requirePermission db' req' = Permissions.Respond r
    /\ status r = 403
    /\ forall handler, StorageRoutes.guarded db' req' handler = (db', r).
Proof.
  intros Hns Hne Hh Hremote Ho Hr Hns' db'.
  assert (Permissions.request_origin req' = Permissions.request_origin req)
    as Hsame.
  { unfold Permissions.request_origin. by rewrite Ho, Hr. }
  assert (Permissions.requirePermission db' req' =
          Permissions.Respond
            (error_response 403 "Permission denied"
               ("Origin " ++ Permissions.dquote ++
                Permissions.request_origin req ++ Permissions.dquote ++
                " has not been granted access to namespace " ++
                Permissions.dquote ++ ns ++ Permissions.dquote ++
                ". Call /uhp/v1/permissions/request first."))) as Hdeny.
  { rewrite requirePermission_cases, Hns', Hsame, Hremote.
    cbn [truthy_str]. apply String.eqb_neq in Hne as Hne'. rewrite Hne'.
    unfold db', PermissionRoutes.post_revoke. rewrite Hns. cbn [truthy_str].
    rewrite Hne'. cbn [negb].
    rewrite (route_origin_headers _ Hh).
    unfold Permissions.revokePermission, Permissions.checkPermission.
    cbn [fst permissions with_permissions]. by rewrite lookup_delete_eq. }
  eexists. split; [exact Hdeny|]. split; [done|].
  intros handler. unfold StorageRoutes.guarded. by rewrite Hdeny.
Qed.

Lemma revoke_then_storage_denied_witness :
  let req := {| origin_header := Some "https://twitter.com";
                referer_header := None;
                req_body := {| b_namespace := Some "twitter.com";
                               b_collection := None; b_id := None;
                               b_data := None; b_capabilities := None;
                               b_origin := None |} |} in
  let db := fst (PermissionRoutes.post_request Db.empty 1000 req) in
  Permissions.requirePermission db req = Permissions.Next
  /\ exists r,
       Permissions.requirePermission
         (fst (PermissionRoutes.post_revoke db req)) req
       = Permissions.Respond r
       /\ status r = 403.
Proof.
  cbv zeta. split; [vm_compute; reflexivity|].
  match goal with
  | |- exists r, Permissions.requirePermission
                   (fst (PermissionRoutes.post_revoke ?db ?req)) _ = _ /\ _ =>
      destruct (revoke_then_storage_denied db req "twitter.com" req)
        as (r & H1 & H2 & _); try reflexivity; try discriminate
  end.
  exists r. split; [exact H1 | exact H2].
Defined.

(** X13: what [listPermissions] lists.  A grant is in the list exactly
    when its row is in the table and, for a non-empty origin argument,
    its origin is that one; with no origin or an empty one every row
    is listed, once, so that [GET /permissions/list?origin=] answers
    as the request without the parameter does. *)
Theorem listPermissions_lists_rows db origin g :
  (g ∈ Permissions.listPermissions db origin <->
   permissions db !! (Permissions.l_origin g, Permissions.l_namespace g) =
     Some {| Db.capabilities := Permissions.l_capabilities g;
             granted_at := Permissions.l_granted_at g |}
   /\ (truthy_str origin = true -> origin = Some (Permissions.l_origin g)))
  /\ (truthy_str origin = false ->
      length (Permissions.listPermissions db origin) = size (permissions db))
  /\ PermissionRoutes.get_list db (Some "") = PermissionRoutes.get_list db None.
Proof.
  assert (forall kr : string * string * permission_row,
            kr ∈ map_to_list (permissions db) <->
            permissions db !! kr.1 = Some kr.2) as Hrows.
  { intros [[o n] row]. apply elem_of_map_to_list. }
  assert (forall rows : list (string * string * permission_row),
            g ∈ Permissions.to_listed <$> rows <->
            (Permissions.l_origin g, Permissions.l_namespace g,
             {| Db.capabilities := Permissions.l_capabilities g;
                granted_at := Permissions.l_granted_at g |}) ∈ rows) as Hmap.
  { intros rows. rewrite list_elem_of_fmap. split.
    - intros ([[o n] [c t]] & -> & Hin). exact Hin.
    - intros Hin. eexists. split; [|exact Hin]. by destruct g. }
  unfold Permissions.listPermissions. split; [|split; [|reflexivity]].
  - rewrite Hmap. destruct origin as [o|]; cbn [truthy_str].
    + destruct (negb (String.eqb o "")) eqn:Ho.
      * rewrite list_elem_of_In, filter_In, <- list_elem_of_In, Hrows.
        cbn [fst snd]. rewrite String.eqb_eq. split.
        -- intros [H <-]. split; [done | by intros _].
        -- intros [H Heq]. split; [done|]. specialize (Heq eq_refl).
           by injection Heq.
      * rewrite Hrows. cbn [fst snd]. split; [by intros H|by intros [H _]].
    + rewrite Hrows. cbn [fst snd]. split; [by intros H|by intros [H _]].
  - intros Hfalsy. rewrite length_fmap.
    assert (match origin with
            | Some o =>
                if truthy_str (Some o)
                then List.filter (fun kr => String.eqb kr.1.1 o)
                       (map_to_list (permissions db))
                else map_to_list (permissions db)
            | None => map_to_list (permissions db)
            end = map_to_list (permissions db)) as ->.
    { destruct origin as [o|]; [|done]. by rewrite Hfalsy. }
    apply length_map_to_list.
Qed.

(** ** The storage routes as a whole *)

Section StorageRouteFacts.

Import Storage Permissions StorageRoutes.

(** The middleware reads the grants only. *)
Lemma requirePermission_permissions db1 db2 req :
  permissions db1 = permissions db2 ->
  requirePermission db1 req = requirePermission db2 req.
Proof.
  intros H. unfold requirePermission, checkPermission. by rewrite H.
Qed.

Lemma post_write_valid db t_id rnd now req ns col data :
  b_namespace (req_body req) = Some ns ->
  b_collection (req_body req) = Some col ->
  b_data (req_body req) = Some data ->
  ns <> "" -> col <> "" -> truthy data = true ->
  post_write db t_id rnd now req =
  (fst (writeItem db t_id rnd now ns col (b_id (req_body req)) data),
   ok_response
     [("success", JBool true);
      ("id", JStr (wr_id (snd (writeItem db t_id rnd now ns col
                                 (b_id (req_body req)) data))));
      ("created_at", JNum now)]).
Proof.
  intros Hns Hcol Hdata Hn Hc Ht. unfold post_write.
  rewrite Hns, Hcol, Hdata. cbn [truthy_str].
  apply String.eqb_neq in Hn as ->. apply String.eqb_neq in Hc as ->.
  rewrite Ht. reflexivity.
Qed.

Lemma post_delete_valid db req ns col id :
  b_namespace (req_body req) = Some ns ->
  b_collection (req_body req) = Some col ->
  b_id (req_body req) = Some id ->
  ns <> "" -> col <> "" -> id <> "" ->
  post_delete db req =
  (fst (deleteItem db ns col id),
   ok_response [("success", JBool true);
                ("deleted", JNum (snd (deleteItem db ns col id)))]).
Proof.
  intros Hns Hcol Hid Hn Hc Hi. unfold post_delete.
  rewrite Hns, Hcol, Hid. cbn [truthy_str].
  apply String.eqb_neq in Hn as ->. apply String.eqb_neq in Hc as ->.
  apply String.eqb_neq in Hi as ->. reflexivity.
Qed.

Lemma guarded_cases db req handler :
  (exists r, requirePermission db req = Respond r /\ status r = 403
             /\ guarded db req handler = (db, r))
  \/ (requirePermission db req = Next /\ guarded db req handler = handler).
Proof.
  unfold guarded. rewrite requirePermission_cases.
  destruct (b_namespace (req_body req)) as [ns|]; [|by right].
  destruct (_ && _ && _); [left; by eexists | by right].
Qed.

Lemma post_write_outcome db t_id rnd now req :
  (status (snd (post_write db t_id rnd now req)) = 400
   /\ fst (post_write db t_id rnd now req) = db)
  \/ (status (snd (post_write db t_id rnd now req)) = 200
      /\ permissions (fst (post_write db t_id rnd now req)) = permissions db).
Proof.
  unfold post_write.
  destruct (b_namespace (req_body req)) as [ns|]; [|by left].
  destruct (b_collection (req_body req)) as [col|]; [|by left].
  destruct (b_data (req_body req)) as [data|]; [|by left].
  destruct (_ || _ || _); [by left | by right].
Qed.

Lemma post_update_outcome db now req :
  ((status (snd (post_update db now req)) = 400
    \/ status (snd (post_update db now req)) = 404)
   /\ fst (post_update db now req) = db)
  \/ (status (snd (post_update db now req)) = 200
      /\ permissions (fst (post_update db now req)) = permissions db).
Proof.
  unfold post_update.
  destruct (b_namespace (req_body req)) as [ns|]; [|left; by eauto].
  destruct (b_collection (req_body req)) as [col|]; [|left; by eauto].
  destruct (b_id (req_body req)) as [id|]; [|left; by eauto].
  destruct (b_data (req_body req)) as [data|]; [|left; by eauto].
  destruct (_ || _ || _ || _); [left; by eauto|].
  unfold updateItem. destruct (items db !! (ns, col, id)); [by right|].
  left. by eauto.
Qed.

Lemma post_delete_outcome db req :
  (status (snd (post_delete db req)) = 400 /\ fst (post_delete db req) = db)
  \/ (status (snd (post_delete db req)) = 200
      /\ permissions (fst (post_delete db req)) = permissions db).
Proof.
  unfold post_delete.
  destruct (b_namespace (req_body req)) as [ns|]; [|by left].
  destruct (b_collection (req_body req)) as [col|]; [|by left].
  destruct (b_id (req_body req)) as [id|]; [|by left].
  destruct (_ || _ || _); [by left | by right].
Qed.

Lemma generated_id_not_empty (t_id : Z) rnd : pretty t_id ++ "-" ++ rnd <> "".
Proof.
  destruct (pretty t_id) as [|c s]; simpl; discriminate.
Qed.

End StorageRouteFacts.

(** X14: the storage routes fail without side effects.  Whenever
    the write, the update or the delete route answers 400, 403 or 404,
    the database is exactly as before, and whatever they answer, no
    grant is changed.  (The 500 answer of a statement that throws is
    not modelled and nothing is said of it.) *)
Theorem storage_routes_fail_clean db t_id rnd now req :
  let w := StorageRoutes.storage_write db t_id rnd now req in
  let u := StorageRoutes.storage_update db now req in
  let d := StorageRoutes.storage_delete db req in
  (status (snd w) = 400 \/ status (snd w) = 403 \/ status (snd w) = 404 ->
   fst w = db)
  /\ (status (snd u) = 400 \/ status (snd u) = 403 \/ status (snd u) = 404 ->
      fst u = db)
  /\ (status (snd d) = 400 \/ status (snd d) = 403 \/ status (snd d) = 404 ->
      fst d = db)
  /\ permissions (fst w) = permissions db
  /\ permissions (fst u) = permissions db
  /\ permissions (fst d) = permissions db.
Proof.
  cbv zeta.
  unfold StorageRoutes.storage_write, StorageRoutes.storage_update,
    StorageRoutes.storage_delete.
  destruct (guarded_cases db req (StorageRoutes.post_write db t_id rnd now req))
    as [(r & Hr & H403 & ->) | [Hnext ->]].
  - destruct (guarded_cases db req (StorageRoutes.post_update db now req))
      as [(r2 & Hr2 & _ & ->) | [Hnext _]]; [|congruence].
    destruct (guarded_cases db req (StorageRoutes.post_delete db req))
      as [(r3 & Hr3 & _ & ->) | [Hnext _]]; [|congruence].
    cbn [fst snd]. repeat split; auto.
  - destruct (guarded_cases db req (StorageRoutes.post_update db now req))
      as [(r2 & Hr2 & _ & _) | [_ ->]]; [congruence|].
    destruct (guarded_cases db req (StorageRoutes.post_delete db req))
      as [(r3 & Hr3 & _ & _) | [_ ->]]; [congruence|].
    destruct (post_write_outcome db t_id rnd now req) as [[Hw ->] | [Hw Hpw]];
      destruct (post_update_outcome db now req) as [[Hu ->] | [Hu Hpu]];
      destruct (post_delete_outcome db req) as [[Hd ->] | [Hd Hpd]];
      repeat split; auto; intros [H | [H | H]]; congruence.
Qed.

Lemma storage_routes_fail_clean_witness :
  let row := {| Db.data := JObj [("text", JStr "a")];
                created_at := 1000; updated_at := 1000 |} in
  let db := with_items Db.empty {[ ("x.com", "bookmarks", "t1") := row ]} in
  let req := {| origin_header := Some "https://evil.example";
                referer_header := None;
                req_body := {| b_namespace := Some "x.com";
                               b_collection := Some "bookmarks";
                               b_id := Some "t1";
                               b_data := Some (JObj [("text", JStr "b")]);
                               b_capabilities := None;
                               b_origin := None |} |} in
  status (snd (StorageRoutes.storage_delete db req)) = 403
  /\ fst (StorageRoutes.storage_delete db req) = db.
Proof.
  cbv zeta.
  match goal with
  | |- status (snd (StorageRoutes.storage_delete ?db ?req)) = 403 /\ _ =>
      destruct (storage_routes_fail_clean db 0 "" 2000 req)
        as (_ & _ & Hd & _);
      assert (status (snd (StorageRoutes.storage_delete db req)) = 403) as H403
        by (vm_compute; reflexivity)
  end.
  split; [exact H403|]. apply Hd. right. left. exact H403.
Defined.

(** X15: the write route stores the item under the id it answers
    with, the id of the body when that is non-empty and a made-up,
    non-empty one otherwise; a delete through the route with that id,
    from the same sender, reports one deleted row and leaves no item
    under the id. *)
Theorem write_route_then_delete_route db t_id rnd now req ns col (data : json) req2 :
  b_namespace (req_body req) = Some ns ->
  b_collection (req_body req) = Some col ->
  b_data (req_body req) = Some data ->
  ns <> "" -> col <> "" -> truthy data = true ->
  Permissions.requirePermission db req = Permissions.Next ->
  let '(db1, r1) := StorageRoutes.storage_write db t_id rnd now req in
  exists id,
    r1 = ok_response [("success", JBool true); ("id", JStr id);
                      ("created_at", JNum now)]
    /\ id <> ""
    /\ (forall s, b_id (req_body req) = Some s -> s <> "" -> id = s)
    /\ (truthy_str (b_id (req_body req)) = false ->
        id = pretty t_id ++ "-" ++ rnd)
    /\ Db.data <$> items db1 !! (ns, col, id) = Some data
    /\ (origin_header req2 = origin_header req ->
        referer_header req2 = referer_header req ->
        b_namespace (req_body req2) = Some ns ->
        b_collection (req_body req2) = Some col ->
        b_id (req_body req2) = Some id ->
        StorageRoutes.storage_delete db1 req2 =
          (with_items db (delete (ns, col, id) (items db)),
           ok_response [("success", JBool true); ("deleted", JNum 1)])).
Proof.
  intros Hns Hcol Hdata Hn Hc Ht Hnext.
  unfold StorageRoutes.storage_write, StorageRoutes.guarded. rewrite Hnext.
  rewrite (post_write_valid _ _ _ _ _ _ _ _ Hns Hcol Hdata Hn Hc Ht).
  unfold Storage.writeItem. cbn [fst snd Storage.wr_id].
  set (id := match b_id (req_body req) with
             | Some s => if truthy_str (Some s) then s
                         else pretty t_id ++ "-" ++ rnd
             | None => pretty t_id ++ "-" ++ rnd
             end).
  assert (id <> "") as Hid.
  { unfold id. destruct (b_id (req_body req)) as [s|];
      [|apply generated_id_not_empty].
    cbn [truthy_str]. destruct (String.eqb s "") eqn:E; cbn [negb].
    - apply generated_id_not_empty.
    - by apply String.eqb_neq. }
  exists id. split; [done|]. split; [done|].
  split.
  { intros s Hs Hne. unfold id. rewrite Hs. cbn [truthy_str].
    by apply String.eqb_neq in Hne as ->. }
  split.
  { intros Hfalsy. unfold id. destruct (b_id (req_body req)) as [s|]; [|done].
    by rewrite Hfalsy. }
  split.
  { cbn [items with_items]. by rewrite upsert_lookup_eq. }
  intros Ho Hr Hns2 Hcol2 Hid2.
  unfold StorageRoutes.storage_delete, StorageRoutes.guarded.
  assert (Permissions.requirePermission
            (with_items db (Storage.upsert (items db) (ns, col, id) data now now))
            req2 = Permissions.Next) as ->.
  { rewrite (requirePermission_permissions _ db) by done.
    rewrite requirePermission_cases in Hnext |- *.
    rewrite Hns in Hnext. rewrite Hns2.
    unfold Permissions.request_origin in *. by rewrite Ho, Hr. }
  rewrite (post_delete_valid _ _ _ _ _ Hns2 Hcol2 Hid2 Hn Hc Hid).
  unfold Storage.deleteItem. cbn [fst snd items with_items permissions].
  rewrite upsert_lookup_eq. f_equal.
  unfold Storage.upsert.
  destruct (items db !! (ns, col, id)); rewrite delete_insert_eq;
    by destruct db.
Qed.

Lemma write_route_then_delete_route_witness :
  let req := {| origin_header := Some "http://localhost:3000";
                referer_header := None;
                req_body := {| b_namespace := Some "x.com";
                               b_collection := Some "bookmarks";
                               b_id := None;
                               b_data := Some (JObj [("text", JStr "a")]);
                               b_capabilities := None;
                               b_origin := None |} |} in
  Permissions.requirePermission Db.empty req = Permissions.Next
  /\ exists id,
       snd (StorageRoutes.storage_write Db.empty 1000 "k3x9qa" 1000 req) =
         ok_response [("success", JBool true); ("id", JStr id);
                      ("created_at", JNum 1000)]
       /\ id = "1000-k3x9qa".
Proof.
  cbv zeta. split; [reflexivity|].
  match goal with
  | |- exists id, snd (StorageRoutes.storage_write ?db ?t ?rnd ?now ?req) = _ /\ _ =>
      pose proof (write_route_then_delete_route db t rnd now req
                    "x.com" "bookmarks" (JObj [("text", JStr "a")]) req
                    eq_refl eq_refl eq_refl) as H;
      destruct (StorageRoutes.storage_write db t rnd now req) as [db1 r1]
  end.
  destruct H as (id & H1 & _ & _ & H4 & _); try discriminate; try reflexivity.
  exists id. split; [exact H1 | by apply H4].
Defined.

(** X16: a storage request whose body has no namespace, or an empty
    one, is never answered 403, whatever its origin and whatever the
    grants: the write, update and delete routes answer it with 400
    INVALID_REQUEST and leave the database untouched. *)
Theorem storage_routes_without_namespace db t_id rnd now req :
  truthy_str (b_namespace (req_body req)) = false ->
  StorageRoutes.storage_write db t_id rnd now req =
    (db, error_response 400 "INVALID_REQUEST"
           "Missing required fields: namespace, collection, data")
  /\ StorageRoutes.storage_update db now req =
    (db, error_response 400 "INVALID_REQUEST"
           "Missing required fields: namespace, collection, id, data")
  /\ StorageRoutes.storage_delete db req =
    (db, error_response 400 "INVALID_REQUEST"
           "Missing required fields: namespace, collection, id").
Proof.
  intros Hns.
  unfold StorageRoutes.storage_write, StorageRoutes.storage_update,
    StorageRoutes.storage_delete, StorageRoutes.guarded.
  rewrite (requirePermission_no_namespace _ _ Hns).
  unfold StorageRoutes.post_write, StorageRoutes.post_update,
    StorageRoutes.post_delete.
  destruct (b_namespace (req_body req)) as [ns|]; [|done].
  cbn [truthy_str] in Hns. apply negb_false_iff in Hns.
  cbn [truthy_str]. rewrite Hns. cbn [negb orb].
  destruct (b_collection (req_body req)), (b_id (req_body req)),
    (b_data (req_body req)); done.
Qed.

Lemma storage_routes_without_namespace_witness :
  let req := {| origin_header := Some "https://evil.example";
                referer_header := None;
                req_body := {| b_namespace := None;
                               b_collection := Some "bookmarks";
                               b_id := Some "t1";
                               b_data := Some (JObj [("text", JStr "a")]);
                               b_capabilities := None;
                               b_origin := None |} |} in
  truthy_str (b_namespace (req_body req)) = false
  /\ StorageRoutes.storage_delete Db.empty req =
       (Db.empty, error_response 400 "INVALID_REQUEST"
                    "Missing required fields: namespace, collection, id").
Proof.
  cbv zeta. split; [reflexivity|].
  match goal with
  | |- StorageRoutes.storage_delete ?db ?req = _ =>
      destruct (storage_routes_without_namespace db 0 "" 0 req eq_refl)
        as (_ & _ & H)
  end.
  exact H.
Defined.

(** ** Queries and searches *)

Section QueryFacts.

Import Storage.

Variable bindable : json -> bool.
Variable json_extract_eq : json -> string -> json -> bool.
Variable data_like : json -> string -> bool.

Implicit Types (kr : string * string * string * item_row).

#[local] Instance by_updated_total asc : Total (by_updated asc).
Proof. intros a b. unfold by_updated. destruct asc; lia. Qed.

#[local] Instance by_updated_trans asc : Transitive (by_updated asc).
Proof. intros a b c. unfold by_updated. destruct asc; lia. Qed.

#[local] Instance to_item_inj : Inj (=) (=) to_item.
Proof.
  intros [[[n1 c1] i1] [d1 a1 u1]] [[[n2 c2] i2] [d2 a2 u2]] H.
  by injection H as -> -> -> -> -> ->.
Qed.

Lemma StronglySorted_sublist {A} (R : relation A) (l1 l2 : list A) :
  l1 `sublist_of` l2 -> StronglySorted R l2 -> StronglySorted R l1.
Proof.
  induction 1 as [|x l1 l2 Hsub IH|x l1 l2 Hsub IH]; intros Hs; [done| |].
  - apply StronglySorted_inv in Hs as [Hs Hall]. constructor; [by apply IH|].
    rewrite Forall_forall in Hall |- *. intros y Hy. apply Hall.
    by eapply elem_of_sublist.
  - apply StronglySorted_inv in Hs as [Hs _]. by apply IH.
Qed.

Lemma limit_offset_sublist {A} limit offset (rows : list A) :
  limit_offset limit offset rows `sublist_of` rows.
Proof.
  unfold limit_offset. destruct (limit <? 0)%Z.
  - apply sublist_drop.
  - etrans; [apply sublist_take | apply sublist_drop].
Qed.

Lemma limit_offset_length {A} limit offset (rows : list A) :
  (0 <= limit)%Z -> (length (limit_offset limit offset rows) <= Z.to_nat limit)%nat.
Proof.
  intros Hl. unfold limit_offset.
  assert ((limit <? 0)%Z = false) as -> by (apply Z.ltb_ge; lia).
  rewrite length_take. lia.
Qed.

Lemma limit_offset_all {A} limit offset (rows : list A) :
  (offset <= 0)%Z ->
  (limit < 0 \/ Z.of_nat (length rows) <= limit)%Z ->
  limit_offset limit offset rows = rows.
Proof.
  intros Ho Hl. unfold limit_offset.
  replace (Z.to_nat offset) with 0%nat by lia. rewrite drop_0.
  destruct (limit <? 0)%Z eqn:E; [done|].
  apply Z.ltb_ge in E. apply take_ge. lia.
Qed.

(** The rows a statement selects, before they are turned into items. *)
Lemma selected_rows (p : string * string * string * item_row -> bool)
    asc limit offset db kr :
  kr ∈ limit_offset limit offset
         (merge_sort (by_updated asc) (List.filter p (map_to_list (items db)))) ->
  p kr = true /\ items db !! kr.1 = Some kr.2.
Proof.
  intros Hin. eapply elem_of_sublist in Hin; [|apply limit_offset_sublist].
  rewrite merge_sort_Permutation in Hin.
  apply list_elem_of_In, filter_In in Hin as [Hin Hp].
  split; [done|]. apply list_elem_of_In in Hin.
  destruct kr as [key row]. by apply elem_of_map_to_list.
Qed.

Lemma selected_NoDup (p : string * string * string * item_row -> bool)
    asc limit offset db :
  NoDup (to_item <$>
           limit_offset limit offset
             (merge_sort (by_updated asc)
                (List.filter p (map_to_list (items db))))).
Proof.
  apply (NoDup_fmap_2 _).
  eapply sublist_NoDup; [|apply limit_offset_sublist].
  rewrite merge_sort_Permutation.
  apply NoDup_ListNoDup, List.NoDup_filter, NoDup_ListNoDup, NoDup_map_to_list.
Qed.

Lemma selected_sorted (p : string * string * string * item_row -> bool)
    (asc : bool) limit offset db :
  StronglySorted
    (fun a b : item => if asc then (i_updated_at a <= i_updated_at b)%Z
                       else (i_updated_at b <= i_updated_at a)%Z)
    (to_item <$>
       limit_offset limit offset
         (merge_sort (by_updated asc) (List.filter p (map_to_list (items db))))).
Proof.
  apply (StronglySorted_fmap _ (by_updated asc)).
  - intros [[[n1 c1] i1] r1] [[[n2 c2] i2] r2]. unfold by_updated. by simpl.
  - eapply StronglySorted_sublist; [apply limit_offset_sublist|].
    apply (StronglySorted_merge_sort _).
Qed.

Lemma in_collection_spec ns col kr :
  in_collection ns col kr = true <-> kr.1.1.1 = ns /\ kr.1.1.2 = col.
Proof.
  unfold in_collection. by rewrite andb_true_iff, !String.eqb_eq.
Qed.

End QueryFacts.

(** X17: [queryItems] returns stored items of the requested collection
    only.  Whenever the statement returns, every item returned has the
    requested namespace and collection, is stored under its id with
    exactly the data and timestamps returned, satisfies every entry of
    the filter, and is returned once. *)
Theorem queryItems_returns_stored_items
    (bindable : json -> bool) (json_extract_eq : json -> string -> json -> bool)
    db ns col query sort limit offset res :
  Storage.queryItems bindable json_extract_eq db ns col query sort limit offset
    = Some res ->
  NoDup res
  /\ forall it, it ∈ res ->
       Storage.i_namespace it = ns /\ Storage.i_collection it = col
       /\ items db !! (ns, col, Storage.i_id it) =
            Some {| Db.data := Storage.i_data it;
                    created_at := Storage.i_created_at it;
                    updated_at := Storage.i_updated_at it |}
       /\ forall kv, kv ∈ Storage.query_entries query ->
            json_extract_eq (Storage.i_data it) kv.1 kv.2 = true.
Proof.
  unfold Storage.queryItems.
  destruct (forallb _ (Storage.query_entries query)); [|done].
  intros [= <-]. split; [apply selected_NoDup|].
  intros it ([[[n c] i] [d a u]] & -> & Hin)%list_elem_of_fmap.
  apply selected_rows in Hin as [Hp Hrow].
  apply andb_true_iff in Hp as [[Hn Hc]%in_collection_spec Hf].
  simpl in Hn, Hc, Hrow. subst n c. simpl. repeat split; [done|].
  intros kv Hkv. rewrite forallb_forall in Hf.
  by apply (Hf kv), list_elem_of_In.
Qed.

Lemma queryItems_returns_stored_items_witness :
  let db :=
    with_items Db.empty
      (<[("x.com", "bookmarks", "t1") :=
           {| Db.data := JObj [("text", JStr "a")];
              created_at := 1000; updated_at := 1000 |}]>
         (<[("y.org", "notes", "n1") :=
              {| Db.data := JObj [("text", JStr "c")];
                 created_at := 1002; updated_at := 2000 |}]> ∅)) in
  let res :=
    [ {| Storage.i_id := "t1"; Storage.i_namespace := "x.com";
         Storage.i_collection := "bookmarks";
         Storage.i_data := JObj [("text", JStr "a")];
         Storage.i_created_at := 1000; Storage.i_updated_at := 1000 |} ] in
  Storage.queryItems (fun _ => true) (fun _ _ _ => true) db
    "x.com" "bookmarks" (Some (JObj [("text", JStr "a")])) None None None
    = Some res
  /\ NoDup res
  /\ forall it, it ∈ res -> Storage.i_namespace it = "x.com".
Proof.
  cbv zeta.
  assert (Storage.queryItems (fun _ => true) (fun _ _ _ => true)
            (with_items Db.empty
               (<[("x.com", "bookmarks", "t1") :=
                    {| Db.data := JObj [("text", JStr "a")];
                       created_at := 1000; updated_at := 1000 |}]>
                  (<[("y.org", "notes", "n1") :=
                       {| Db.data := JObj [("text", JStr "c")];
                          created_at := 1002; updated_at := 2000 |}]> ∅)))
            "x.com" "bookmarks" (Some (JObj [("text", JStr "a")]))
            None None None
          = Some [ {| Storage.i_id := "t1"; Storage.i_namespace := "x.com";
                      Storage.i_collection := "bookmarks";
                      Storage.i_data := JObj [("text", JStr "a")];
                      Storage.i_created_at := 1000;
                      Storage.i_updated_at := 1000 |} ]) as H.
  { vm_compute. reflexivity. }
  split; [exact H|].
  destruct (queryItems_returns_stored_items _ _ _ _ _ _ _ _ _ _ H)
    as [Hnd Hall].
  split; [exact Hnd|]. intros it Hit. by destruct (Hall it Hit).
Defined.

(** X18: [queryItems] honours its limit and its order.  With a limit
    that is not negative (100 when none is given) no more items than
    that are returned, and the items come by [updated_at], ascending
    when [sort] is exactly "asc" and descending for any other or no
    [sort]. *)
Theorem queryItems_limit_and_order
    (bindable : json -> bool) (json_extract_eq : json -> string -> json -> bool)
    db ns col query sort limit offset res :
  Storage.queryItems bindable json_extract_eq db ns col query sort limit offset
    = Some res ->
  ((0 <= default 100 limit)%Z ->
   (length res <= Z.to_nat (default 100%Z limit))%nat)
  /\ (sort = Some "asc" ->
      StronglySorted
        (fun a b => (Storage.i_updated_at a <= Storage.i_updated_at b)%Z) res)
  /\ (sort <> Some "asc" ->
      StronglySorted
        (fun a b => (Storage.i_updated_at b <= Storage.i_updated_at a)%Z) res).
Proof.
  unfold Storage.queryItems.
  destruct (forallb _ (Storage.query_entries query)); [|done].
  intros [= <-]. split; [|split].
  - intros Hl. rewrite length_fmap. by apply limit_offset_length.
  - intros ->. apply (selected_sorted _ true).
  - intros Hsort.
    assert (String.eqb (default "desc" sort) "asc" = false) as ->.
    { apply String.eqb_neq. destruct sort as [s|]; [|done].
      simpl. congruence. }
    apply (selected_sorted _ false).
Qed.

Lemma queryItems_limit_and_order_witness :
  let db :=
    with_items Db.empty
      (<[("x.com", "bookmarks", "t1") :=
           {| Db.data := JObj [("text", JStr "a")];
              created_at := 1000; updated_at := 1000 |}]>
         (<[("x.com", "bookmarks", "t2") :=
              {| Db.data := JObj [("text", JStr "b")];
                 created_at := 1001; updated_at := 3000 |}]>
            (<[("y.org", "notes", "n1") :=
                 {| Db.data := JObj [("text", JStr "c")];
                    created_at := 1002; updated_at := 2000 |}]> ∅))) in
  let res :=
    [ {| Storage.i_id := "t2"; Storage.i_namespace := "x.com";
         Storage.i_collection := "bookmarks";
         Storage.i_data := JObj [("text", JStr "b")];
         Storage.i_created_at := 1001; Storage.i_updated_at := 3000 |} ] in
  Storage.queryItems (fun _ => true) (fun _ _ _ => true) db
    "x.com" "bookmarks" None None (Some 1) None = Some res
  /\ (length res <= 1)%nat.
Proof.
  cbv zeta.
  assert (Storage.queryItems (fun _ => true) (fun _ _ _ => true)
            (with_items Db.empty
               (<[("x.com", "bookmarks", "t1") :=
                    {| Db.data := JObj [("text", JStr "a")];
                       created_at := 1000; updated_at := 1000 |}]>
                  (<[("x.com", "bookmarks", "t2") :=
                       {| Db.data := JObj [("text", JStr "b")];
                          created_at := 1001; updated_at := 3000 |}]>
                     (<[("y.org", "notes", "n1") :=
                          {| Db.data := JObj [("text", JStr "c")];
                             created_at := 1002; updated_at := 2000 |}]> ∅))))
            "x.com" "bookmarks" None None (Some 1) None
          = Some [ {| Storage.i_id := "t2"; Storage.i_namespace := "x.com";
                      Storage.i_collection := "bookmarks";
                      Storage.i_data := JObj [("text", JStr "b")];
                      Storage.i_created_at := 1001;
                      Storage.i_updated_at := 3000 |} ]) as H.
  { vm_compute. reflexivity. }
  split; [exact H|].
  destruct (queryItems_limit_and_order _ _ _ _ _ _ _ _ _ _ H) as [Hlen _].
  apply Hlen. simpl. lia.
Defined.

(** X19: without a filter, with an offset that is not positive and
    a limit that the table does not exceed (or a negative one), both
    within the 64-bit integers the engine accepts, [queryItems]
    returns every item stored in the collection. *)
Theorem queryItems_returns_whole_collection
    (bindable : json -> bool) (json_extract_eq : json -> string -> json -> bool)
    db ns col sort limit offset id row :
  (- 2 ^ 63 <= default 100 limit < 2 ^ 63)%Z ->
  (- 2 ^ 63 <= default 0 offset <= 0)%Z ->
  (default 100 limit < 0 \/ Z.of_nat (size (items db)) <= default 100 limit)%Z ->
  items db !! (ns, col, id) = Some row ->
  exists res,
    Storage.queryItems bindable json_extract_eq db ns col None sort limit offset
      = Some res
    /\ {| Storage.i_id := id; Storage.i_namespace := ns;
          Storage.i_collection := col; Storage.i_data := Db.data row;
          Storage.i_created_at := created_at row;
          Storage.i_updated_at := updated_at row |} ∈ res.
Proof.
  intros _ [_ Ho] Hl Hrow. unfold Storage.queryItems.
  cbn [Storage.query_entries forallb].
  eexists. split; [reflexivity|].
  rewrite limit_offset_all; [|done|].
  - apply list_elem_of_fmap. exists (ns, col, id, row). split; [done|].
    rewrite merge_sort_Permutation.
    apply list_elem_of_In, filter_In. split.
    + apply list_elem_of_In. by apply elem_of_map_to_list.
    + rewrite andb_true_r. apply in_collection_spec. done.
  - destruct Hl as [Hl|Hl]; [by left|right].
    etrans; [|exact Hl]. apply inj_le.
    rewrite merge_sort_Permutation.
    etrans; [apply List.filter_length_le|].
    by rewrite length_map_to_list.
Qed.

Lemma queryItems_returns_whole_collection_witness :
  let row := {| Db.data := JObj [("text", JStr "a")];
                created_at := 1000; updated_at := 1000 |} in
  let db := with_items Db.empty {[ ("x.com", "bookmarks", "t1") := row ]} in
  items db !! ("x.com", "bookmarks", "t1") = Some row
  /\ exists res,
       Storage.queryItems (fun _ => true) (fun _ _ _ => true) db
         "x.com" "bookmarks" None None None None = Some res
       /\ {| Storage.i_id := "t1"; Storage.i_namespace := "x.com";
             Storage.i_collection := "bookmarks";
             Storage.i_data := JObj [("text", JStr "a")];
             Storage.i_created_at := 1000;
             Storage.i_updated_at := 1000 |} ∈ res.
Proof.
  cbv zeta. split; [apply lookup_singleton_eq|].
  apply (queryItems_returns_whole_collection _ _ _ "x.com" "bookmarks"
           None None None "t1"
           {| Db.data := JObj [("text", JStr "a")];
              created_at := 1000; updated_at := 1000 |}).
  - simpl. lia.
  - simpl. lia.
  - right. simpl. rewrite map_size_singleton. lia.
  - apply lookup_singleton_eq.
Defined.

(** X20: [searchItems] returns stored items of the requested
    collection only, each once and each matching the pattern made of
    the term between two percent signs, newest [updated_at] first, and
    no more of them than the limit when that is not negative (50 when
    none is given). *)
Theorem searchItems_returns_stored_items
    (data_like : json -> string -> bool) db ns col term limit :
  let res := Storage.searchItems data_like db ns col term limit in
  NoDup res
  /\ (forall it, it ∈ res ->
        Storage.i_namespace it = ns /\ Storage.i_collection it = col
        /\ items db !! (ns, col, Storage.i_id it) =
             Some {| Db.data := Storage.i_data it;
                     created_at := Storage.i_created_at it;
                     updated_at := Storage.i_updated_at it |}
        /\ data_like (Storage.i_data it) ("%" ++ term ++ "%") = true)
  /\ StronglySorted
       (fun a b => (Storage.i_updated_at b <= Storage.i_updated_at a)%Z) res
  /\ ((0 <= default 50 limit)%Z ->
      (length res <= Z.to_nat (default 50%Z limit))%nat).
Proof.
  cbv zeta. unfold Storage.searchItems.
  split; [apply selected_NoDup|]. split; [|split].
  - intros it ([[[n c] i] [d a u]] & -> & Hin)%list_elem_of_fmap.
    apply selected_rows in Hin as [Hp Hrow].
    apply andb_true_iff in Hp as [[Hn Hc]%in_collection_spec Hf].
    simpl in Hn, Hc, Hrow. subst n c. simpl. by repeat split.
  - apply (selected_sorted _ false).
  - intros Hl. rewrite length_fmap. by apply limit_offset_length.
Qed.

(** ** What the middleware does and does not look at *)

(** X21: the middleware looks only at which (origin, namespace) pairs
    have a grant row.  Two databases whose grant tables have rows for
    the same pairs get the same decision on every request, whatever
    capabilities and dates the rows hold and whatever items are
    stored: the granted capabilities are not enforced. *)
Theorem requirePermission_ignores_capabilities db1 db2 req :
  (forall key, is_Some (permissions db1 !! key) <-> is_Some (permissions db2 !! key)) ->
  Permissions.requirePermission db1 req = Permissions.requirePermission db2 req.
Proof.
  intros Hdom. rewrite !requirePermission_cases.
  destruct (b_namespace (req_body req)) as [ns|]; [|done].
  assert (Permissions.granted
            (Permissions.checkPermission db1 (Permissions.request_origin req) ns)
          = Permissions.granted
              (Permissions.checkPermission db2 (Permissions.request_origin req) ns))
    as ->; [|done].
  unfold Permissions.checkPermission.
  specialize (Hdom (Permissions.request_origin req, ns)).
  destruct (permissions db1 !! _) as [r1|], (permissions db2 !! _) as [r2|];
    try done.
  - destruct Hdom as [H _]. by destruct (H ltac:(eauto)).
  - destruct Hdom as [_ H]. by destruct (H ltac:(eauto)).
Qed.

Lemma requirePermission_ignores_capabilities_witness :
  let req := {| origin_header := Some "https://twitter.com";
                referer_header := None;
                req_body := {| b_namespace := Some "twitter.com";
                               b_collection := Some "bookmarks";
                               b_id := Some "t1";
                               b_data := Some (JObj [("text", JStr "a")]);
                               b_capabilities := None;
                               b_origin := None |} |} in
  let db1 := fst (Permissions.requestPermission Db.empty 1000
                    "https://twitter.com" "twitter.com" (Some (JArr []))) in
  let db2 := fst (Permissions.requestPermission Db.empty 2000
                    "https://twitter.com" "twitter.com" None) in
  Permissions.requirePermission db1 req = Permissions.requirePermission db2 req
  /\ Permissions.requirePermission db1 req = Permissions.Next.
Proof.
  cbv zeta. split; [|vm_compute; reflexivity].
  apply requirePermission_ignores_capabilities.
  intros key. unfold Permissions.requestPermission.
  cbn [fst permissions with_permissions].
  destruct (decide (("https://twitter.com", "twitter.com") = key)) as [<-|Hne].
  - rewrite !lookup_insert_eq. split; eauto.
  - by rewrite !lookup_insert_ne.
Defined.

(** X22: a client that sends neither an Origin nor a Referer header
    names the origin it asks for in the body.  After such a
    [POST /permissions/request] with [origin: o] in the body, the
    grant is stored for [o], and the storage middleware admits every
    request for the namespace whose own origin is [o]. *)
Theorem body_origin_is_granted db now req o ns req' :
  truthy_str (or_str (origin_header req) (referer_header req)) = false ->
  b_origin (req_body req) = Some o -> o <> "" ->
  b_namespace (req_body req) = Some ns -> ns <> "" ->
  Permissions.request_origin req' = o ->
  b_namespace (req_body req') = Some ns ->
  let db' := fst (PermissionRoutes.post_request db now req) in
  Permissions.granted (Permissions.checkPermission db' o ns) = true
  /\ Permissions.requirePermission db' req' = Permissions.Next.
Proof.
  intros Hh Hbo Ho Hns Hne Horigin Hns' db'.
  assert (PermissionRoutes.route_origin req = o) as Hroute.
  { unfold PermissionRoutes.route_origin.
    remember (or_str (origin_header req) (referer_header req)) as h.
    unfold or_str. rewrite Hh, Hbo. cbn [truthy_str].
    by apply String.eqb_neq in Ho as ->. }
  assert (Permissions.granted (Permissions.checkPermission db' o ns) = true)
    as Hgranted.
  { unfold db', PermissionRoutes.post_request. rewrite Hns, Hroute.
    cbn [truthy_str]. apply String.eqb_neq in Hne as ->. cbn [negb].
    unfold Permissions.requestPermission, Permissions.checkPermission.
    cbn [fst permissions with_permissions]. by rewrite lookup_insert_eq. }
  split; [exact Hgranted|].
  rewrite requirePermission_cases, Hns', Horigin, Hgranted.
  by rewrite andb_false_r.
Qed.

Lemma body_origin_is_granted_witness :
  let req := {| origin_header := None; referer_header := None;
                req_body := {| b_namespace := Some "twitter.com";
                               b_collection := None; b_id := None;
                               b_data := None; b_capabilities := None;
                               b_origin := Some "https://twitter.com" |} |} in
  let req' := {| origin_header := Some "https://twitter.com";
                 referer_header := None;
                 req_body := {| b_namespace := Some "twitter.com";
                                b_collection := Some "bookmarks";
                                b_id := None;
                                b_data := Some (JObj [("text", JStr "a")]);
                                b_capabilities := None;
                                b_origin := None |} |} in
  Permissions.requirePermission Db.empty req' <> Permissions.Next
  /\ Permissions.requirePermission
       (fst (PermissionRoutes.post_request Db.empty 1000 req)) req'
     = Permissions.Next.
Proof.
  cbv zeta. split; [vm_compute; discriminate|].
  match goal with
  | |- Permissions.requirePermission
         (fst (PermissionRoutes.post_request ?db ?now ?req)) ?req' = _ =>
      apply (proj2 (body_origin_is_granted db now req "https://twitter.com"
                      "twitter.com" req' eq_refl eq_refl
                      ltac:(discriminate) eq_refl ltac:(discriminate)
                      eq_refl eq_refl))
  end.
Defined.

(** ** Tampered blobs *)

Section TamperFacts.

Import Envelope Tamper.





End TamperFacts.



